(** * spacenotes: the realtime synchronisation hook [useRealtimeDocState]

    A shallow embedding of [src/hooks/useRealtimeDocState.ts] (both the
    plain version and the session-aware one) and the properties of its
    reducer [apply], of the send gate and of the room identity.

    Modelling conventions.
    - A JavaScript object used as a record of named fields is a finite map
      [gmap string _]; keys are assumed not to collide with members of
      [Object.prototype]: for such a key a read of the plain object
      [pendingUpdates.current] finds the inherited member, which the map does
      not show ([plain_id] names the ids for which the map is exact).
    - [setDoc], [setCursors] and [setSelections] are setters of React state
      hooks of one component, called with updater functions. [apply] below is
      one call made while the component has no state update pending, when
      React runs the updater at once; [call] and [render] give the general
      case, in which updaters wait in a queue for the next render while
      statements outside them, such as the [delete] of [node:delete], run at
      the call.
    - [Object.assign(target, source)] mutates the object found in the node
      array; with one heap object per array slot this is the replacement of
      that slot, written with list insertion by index.
    - Numbers are only stored and compared by the hook, never computed with;
      they are integers here. *)

From Stdlib Require Import ZArith.
From stdpp Require Import gmap strings list fin_maps.

Open Scope string_scope.
Open Scope list_scope.

(** ** Data model *)

(** Field values of a canvas node. *)
Inductive JsVal :=
  | JNum (z : Z)
  | JStr (s : string).

#[global] Instance JsVal_eq_dec : EqDecision JsVal.
Proof. solve_decision. Defined.

(** [CanvasNode]: the mandatory [id] and the remaining fields by name. *)
Record CanvasNode := mkNode {
  node_id : string;
  node_attrs : gmap string JsVal;
}.

(** [Partial<CanvasNode>]: every field optional, the [id] included. *)
Record PartialCanvasNode := mkPartial {
  part_id : option string;
  part_attrs : gmap string JsVal;
}.

#[global] Instance CanvasNode_eq_dec : EqDecision CanvasNode.
Proof. solve_decision. Defined.

#[global] Instance PartialCanvasNode_eq_dec : EqDecision PartialCanvasNode.
Proof. solve_decision. Defined.

(** An edge [{ id, fromNode, toNode }]. *)
Record Edge := mkEdge {
  edge_id : string;
  fromNode : string;
  toNode : string;
}.

#[global] Instance Edge_eq_dec : EqDecision Edge.
Proof. solve_decision. Defined.

(** The document held by [useDocState]. [userId] is the recorded owner. *)
Record Doc := mkDoc {
  doc_id : string;
  title : string;
  userId : option string;
  backgroundColor : option string;
  nodes : list CanvasNode;
  edges : list Edge;
}.

(** A cursor entry [{ x, y, color }]. *)
Record Cursor := mkCursor {
  cursor_x : Z;
  cursor_y : Z;
  cursor_color : string;
}.

(** [RealtimeAction], the tagged union the [switch] of [apply] ranges over. *)
Inductive RealtimeAction :=
  | NodeCreate (node : CanvasNode)
  | NodeUpdate (id : string) (props : PartialCanvasNode)
  | NodeDelete (id : string)
  | EdgeCreate (edge : Edge)
  | EdgeDelete (from to : string)
  | SpaceBackground (color : string)
  | SpaceTitle (new_title : string)
  | CursorMove (x y : Z) (color : string)
  | NodeSelect (ids : list string) (color : string).

(** What [apply] reads and writes: the document, the two presence maps and
    the [pendingUpdates] ref. *)
Record State := mkState {
  doc : Doc;
  cursors : gmap string Cursor;
  selections : gmap string (list string);
  pendingUpdates : gmap string PartialCanvasNode;
}.

(** ** Object and state updates *)

(** [Object.assign(node, props)] on a node: fields of [props] win. *)
Definition assign_node (node : CanvasNode) (props : PartialCanvasNode) : CanvasNode :=
  {| node_id := default (node_id node) (part_id props);
     node_attrs := part_attrs props ∪ node_attrs node |}.

(** [Object.assign(pending, props)] on a buffered fragment. *)
Definition assign_partial (pending props : PartialCanvasNode) : PartialCanvasNode :=
  {| part_id := part_id props ∪ part_id pending;
     part_attrs := part_attrs props ∪ part_attrs pending |}.

(** The empty object literal of [pendingUpdates.current[id] || {}]. *)
Definition empty_partial : PartialCanvasNode :=
  {| part_id := None; part_attrs := ∅ |}.

Definition with_nodes (ns : list CanvasNode) (d : Doc) : Doc :=
  {| doc_id := doc_id d; title := title d; userId := userId d;
     backgroundColor := backgroundColor d; nodes := ns; edges := edges d |}.

Definition with_edges (es : list Edge) (d : Doc) : Doc :=
  {| doc_id := doc_id d; title := title d; userId := userId d;
     backgroundColor := backgroundColor d; nodes := nodes d; edges := es |}.

Definition with_title (t : string) (d : Doc) : Doc :=
  {| doc_id := doc_id d; title := t; userId := userId d;
     backgroundColor := backgroundColor d; nodes := nodes d; edges := edges d |}.

Definition with_backgroundColor (c : string) (d : Doc) : Doc :=
  {| doc_id := doc_id d; title := title d; userId := userId d;
     backgroundColor := Some c; nodes := nodes d; edges := edges d |}.

Definition setDoc (f : Doc → Doc) (s : State) : State :=
  {| doc := f (doc s); cursors := cursors s; selections := selections s;
     pendingUpdates := pendingUpdates s |}.

Definition setCursors (f : gmap string Cursor → gmap string Cursor) (s : State) : State :=
  {| doc := doc s; cursors := f (cursors s); selections := selections s;
     pendingUpdates := pendingUpdates s |}.

Definition setSelections
    (f : gmap string (list string) → gmap string (list string)) (s : State) : State :=
  {| doc := doc s; cursors := cursors s; selections := f (selections s);
     pendingUpdates := pendingUpdates s |}.

Definition setPending
    (f : gmap string PartialCanvasNode → gmap string PartialCanvasNode) (s : State) : State :=
  {| doc := doc s; cursors := cursors s; selections := selections s;
     pendingUpdates := f (pendingUpdates s) |}.

(** The predicate of [nodes.find((n) => n.id === id)]. *)
Definition has_id (id : string) (n : CanvasNode) : Prop := node_id n = id.

#[global] Instance has_id_dec id n : Decision (has_id id n).
Proof. unfold has_id. apply _. Defined.

(** The predicate of the edge filter of [node:delete]. *)
Definition edge_avoids (id : string) (e : Edge) : Prop :=
  fromNode e ≠ id ∧ toNode e ≠ id.

#[global] Instance edge_avoids_dec id e : Decision (edge_avoids id e).
Proof. unfold edge_avoids. apply _. Defined.

(** The predicate of the edge filter of [edge:delete]. *)
Definition edge_not_pair (from to : string) (e : Edge) : Prop :=
  ¬ (fromNode e = from ∧ toNode e = to).

#[global] Instance edge_not_pair_dec from to e : Decision (edge_not_pair from to e).
Proof. unfold edge_not_pair. apply _. Defined.

(** ** The reducer *)

(** [apply(action, sender)], called while no state update is pending: the
    updaters run at once and the statements after the setter calls follow
    (see [call] for a call made while an update is pending).

    In [node:create] the array [newDoc.nodes] holds the object [action.node]
    itself in its last slot. When [find] returns that slot, [Object.assign]
    has written into [action.node], and the [action.node.id] read by the
    [delete] that follows is the id after the assignment; when [find] returns
    an earlier slot, [action.node] is untouched. *)
Definition apply (action : RealtimeAction) (sender : string) (s : State) : State :=
  match action with
  | NodeCreate node =>
      let newNodes := nodes (doc s) ++ [node] in
      match pendingUpdates s !! node_id node with
      | Some pending =>
          match list_find (has_id (node_id node)) newNodes with
          | Some (i, found) =>
              let assigned := assign_node found pending in
              let key :=
                if decide (i = length (nodes (doc s)))
                then node_id assigned
                else node_id node in
              setPending (delete key)
                (setDoc (with_nodes (<[i := assigned]> newNodes)) s)
          | None =>
              setPending (delete (node_id node)) (setDoc (with_nodes newNodes) s)
          end
      | None => setDoc (with_nodes newNodes) s
      end
  | NodeUpdate id props =>
      match list_find (has_id id) (nodes (doc s)) with
      | Some (i, node) =>
          setDoc (with_nodes (<[i := assign_node node props]> (nodes (doc s)))) s
      | None =>
          let pending := default empty_partial (pendingUpdates s !! id) in
          setPending (<[id := assign_partial pending props]>) s
      end
  | NodeDelete id =>
      setPending (delete id)
        (setDoc (λ d,
           with_edges (filter (edge_avoids id) (edges d))
             (with_nodes (filter (λ n, node_id n ≠ id) (nodes d)) d)) s)
  | EdgeCreate edge =>
      setDoc (λ d, with_edges (edges d ++ [edge]) d) s
  | EdgeDelete from to =>
      setDoc (λ d, with_edges (filter (edge_not_pair from to) (edges d)) d) s
  | SpaceBackground color =>
      setDoc (with_backgroundColor color) s
  | SpaceTitle t =>
      setDoc (with_title t) s
  | CursorMove x y color =>
      setCursors (<[sender := mkCursor x y color]>) s
  | NodeSelect ids color =>
      setCursors (λ c,
        <[sender := mkCursor (default 0%Z (cursor_x <$> c !! sender))
                             (default 0%Z (cursor_y <$> c !! sender))
                             color]> c)
        (setSelections (<[sender := ids]>) s)
  end.

(** Actions applied in arrival order, each with its sender. *)
Definition apply_all (acts : list (RealtimeAction * string)) (s : State) : State :=
  fold_left (λ st a, apply a.1 a.2 st) acts s.

(** ** Calls and renders

    [useDocState] is not under src/; [apply] calls its [setDoc] with updater
    functions, as it calls the setters of the two [useState] hooks, and
    [setDoc] is taken to be such a setter too. A setter called with an
    updater while the component has no update pending runs the updater at
    once, and schedules nothing when the updater returns the object it was
    given. While an update is pending the updater is queued; the queued
    updaters run in call order at the next render. The updaters of the
    three hooks touch disjoint state, so one queue in call order stands for
    the three. [pendingUpdates] is a ref: a statement that writes it takes
    effect when that statement runs. *)

(** The names own to [Object.prototype]. *)
Definition Object_prototype_keys : list string :=
  [ "__proto__"; "constructor"; "hasOwnProperty"; "isPrototypeOf";
    "propertyIsEnumerable"; "toLocaleString"; "toString"; "valueOf";
    "__defineGetter__"; "__defineSetter__"; "__lookupGetter__"; "__lookupSetter__" ].

(** An id under which [pendingUpdates.current[id]] reads an own property or
    nothing. *)
Definition plain_id (id : string) : bool := bool_decide (id ∉ Object_prototype_keys).

(** What the updaters that [apply(action, sender)] hands to the setters do
    when they run. For every action but [node:delete] this is all [apply]
    does. *)
Definition updaters (action : RealtimeAction) (sender : string) (s : State) : State :=
  match action with
  | NodeDelete id =>
      setDoc (λ d,
        with_edges (filter (edge_avoids id) (edges d))
          (with_nodes (filter (λ n, node_id n ≠ id) (nodes d)) d)) s
  | _ => apply action sender s
  end.

(** The statements of [apply] after the setter calls:
    [delete pendingUpdates.current[action.id]] in [node:delete]. *)
Definition after_setters (action : RealtimeAction) (s : State) : State :=
  match action with
  | NodeDelete id => setPending (delete id) s
  | _ => s
  end.

(** Whether the updater returns the object it was given: only the [return d]
    of [node:update] when there is no node with the id. *)
Definition returns_same (action : RealtimeAction) (s : State) : bool :=
  match action with
  | NodeUpdate id _ =>
      match list_find (has_id id) (nodes (doc s)) with
      | Some _ => false
      | None => true
      end
  | _ => false
  end.

(** A mounted component: the hook states as the next updater will find them
    together with the ref, the updaters waiting for the render, and whether
    an update is pending. *)
Record Client := mkClient {
  store : State;
  queue : list (RealtimeAction * string);
  scheduled : bool;
}.

(** A component with nothing pending. *)
Definition idle (s : State) : Client :=
  {| store := s; queue := []; scheduled := false |}.

(** One call of [apply(action, sender)]. *)
Definition call (action : RealtimeAction) (sender : string) (c : Client) : Client :=
  if scheduled c then
    {| store := after_setters action (store c);
       queue := queue c ++ [(action, sender)];
       scheduled := true |}
  else
    {| store := after_setters action (updaters action sender (store c));
       queue := queue c;
       scheduled := negb (returns_same action (store c)) |}.

(** A render: the queued updaters run in call order. *)
Definition render (c : Client) : Client :=
  {| store := fold_left (λ s a, updaters a.1 a.2 s) (queue c) (store c);
     queue := [];
     scheduled := false |}.


(** Calls of [apply], each followed by a render. *)
Definition calls_rendered (acts : list (RealtimeAction * string)) (c : Client) : Client :=
  fold_left (λ c a, render (call a.1 a.2 c)) acts c.

(** Calls of [apply] that reach the component between two renders, and the
    render that follows them. *)
Definition calls_batched (acts : list (RealtimeAction * string)) (c : Client) : Client :=
  render (fold_left (λ c a, call a.1 a.2 c) acts c).

(** ** The hook around the reducer (session-aware version) *)

(** JavaScript truthiness of a string, and of a string that may be absent. *)
Definition truthy (s : string) : bool := bool_decide (s ≠ "").

Definition truthy_opt (o : option string) : bool :=
  match o with
  | Some s => truthy s
  | None => false
  end.

(** The value the effect stores in [canSendRef.current]:
    [!doc.userId || doc.userId === userId || !!sessionToken]. *)
Definition canSend (d : Doc) (uid sessionToken : string) : bool :=
  negb (truthy_opt (userId d)) || bool_decide (userId d = Some uid) || truthy sessionToken.

(** [roomId], the first argument of [useRealtimeChannel]:
    [sessionToken ? `${doc.id}:${sessionToken}` : '']. *)
Definition roomId (d : Doc) (sessionToken : string) : string :=
  if truthy sessionToken then doc_id d +:+ ":" +:+ sessionToken else "".

(** The version of the hook without session support passes [doc.id] itself:
    [useRealtimeChannel(doc.id, { apply })]. *)
Module Plain.
Definition room (d : Doc) : string := doc_id d.
End Plain.

(** The state of one mounted hook: what [apply] works on, the authenticated
    identity ([session?.user?.id || '']), the session token, the actions
    handed to [send] so far, and the latest arguments held by the debounced
    [sendUpdate]. *)
Record Hook := mkHook {
  hook_state : State;
  session_userId : string;
  sessionToken : string;
  outbox : list RealtimeAction;
  sendUpdate : option (string * PartialCanvasNode);
}.

Definition hook_doc (h : Hook) : Doc := doc (hook_state h).

(** [canSendRef.current] as an event handler reads it: React has run the
    effect for the committed [doc.userId], [userId] and [sessionToken]. *)
Definition canSendRef (h : Hook) : bool :=
  canSend (hook_doc h) (session_userId h) (sessionToken h).

Definition set_hook_doc (d : Doc) (h : Hook) : Hook :=
  {| hook_state := setDoc (λ _, d) (hook_state h);
     session_userId := session_userId h; sessionToken := sessionToken h;
     outbox := outbox h;
     sendUpdate := sendUpdate h |}.

(** Modelled from the spec: [send] of [useRealtimeChannel], which is not
    under src/. Spec §6: [publish(handle, action)]; the action is recorded as
    outbound. *)
Definition send (a : RealtimeAction) (h : Hook) : Hook :=
  {| hook_state := hook_state h;
     session_userId := session_userId h; sessionToken := sessionToken h;
     outbox := outbox h ++ [a];
     sendUpdate := sendUpdate h |}.

(** [sendIfAllowed(action)]. *)
Definition sendIfAllowed (a : RealtimeAction) (h : Hook) : Hook :=
  if canSendRef h then send a h else h.

(** Modelled from the spec: [debounce] of [lib/utils], which is not under
    src/. Spec §4.4: a trailing-edge debounce; repeated calls within the
    window collapse into a single call with the most recent arguments once
    the window elapses. A call stores its arguments in the sender's slot; the
    window elapsing runs the wrapped function on them and empties the slot. *)
Definition sendUpdate_call (id : string) (props : PartialCanvasNode) (h : Hook) : Hook :=
  {| hook_state := hook_state h;
     session_userId := session_userId h; sessionToken := sessionToken h;
     outbox := outbox h;
     sendUpdate := Some (id, props) |}.

Definition sendUpdate_elapse (h : Hook) : Hook :=
  match sendUpdate h with
  | Some (id, props) =>
      sendIfAllowed (NodeUpdate id props)
        {| hook_state := hook_state h;
           session_userId := session_userId h; sessionToken := sessionToken h;
           outbox := outbox h;
           sendUpdate := None |}
  | None => h
  end.

(** The local edit handlers. Each one edits the document through
    [useDocState] or [setDoc] and hands the action to [sendIfAllowed], which
    reads the ref as it was committed before the edit. *)
Section Handlers.
  (** The operations of [useDocState], which is not under src/: each is some
      transformation of the document ([onNodeCreate] also returns the node it
      made). *)
Variable state_onNodeCreate : PartialCanvasNode → Doc → CanvasNode * Doc.
Variable state_onNodeDelete : string → Doc → Doc.
Variable state_onNodeUpdate : string → PartialCanvasNode → Doc → Doc.
Variable state_onDisconnect : string → string → Doc → Doc.
Variable state_onBackgroundColorChange : string → Doc → Doc.

Definition onNodeCreate (props : PartialCanvasNode) (h : Hook) : CanvasNode * Hook :=
    let r := state_onNodeCreate props (hook_doc h) in
    (r.1, set_hook_doc r.2 (sendIfAllowed (NodeCreate r.1) h)).

Definition onNodeDelete (id : string) (h : Hook) : Hook :=
    set_hook_doc (state_onNodeDelete id (hook_doc h)) (sendIfAllowed (NodeDelete id) h).

Definition onNodeUpdate (id : string) (props : PartialCanvasNode) (h : Hook) : Hook :=
    sendUpdate_call id props (set_hook_doc (state_onNodeUpdate id props (hook_doc h)) h).

  (** [randomId()] is the argument [rid]. *)
Definition onConnect (rid from to : string) (h : Hook) : Hook :=
    let edge := mkEdge rid from to in
    set_hook_doc (with_edges (edges (hook_doc h) ++ [edge]) (hook_doc h))
      (sendIfAllowed (EdgeCreate edge) h).

Definition onDisconnect (from to : string) (h : Hook) : Hook :=
    set_hook_doc (state_onDisconnect from to (hook_doc h))
      (sendIfAllowed (EdgeDelete from to) h).

Definition onBackgroundColorChange (color : string) (h : Hook) : Hook :=
    set_hook_doc (state_onBackgroundColorChange color (hook_doc h))
      (sendIfAllowed (SpaceBackground color) h).

Definition onTitleChange (t : string) (h : Hook) : Hook :=
    set_hook_doc (with_title t (hook_doc h)) (sendIfAllowed (SpaceTitle t) h).
End Handlers.

(** Modelled from the spec: [onNodeDelete] of [useDocState], which is not
    under src/. Spec §4.3: "Deleting a node also removes every edge
    referencing it (cascade), applied consistently whether the delete
    originates locally or remotely." *)
Definition docState_onNodeDelete (id : string) (d : Doc) : Doc :=
  with_edges (filter (λ e, ¬ (fromNode e = id ∨ toNode e = id)) (edges d))
    (with_nodes (filter (λ n, node_id n ≠ id) (nodes d)) d).

(** ** Sample data and the predicates of the statements *)

Definition empty_doc : Doc :=
  {| doc_id := "d1"; title := ""; userId := None; backgroundColor := None;
     nodes := []; edges := [] |}.

Definition empty_state : State :=
  {| doc := empty_doc; cursors := ∅; selections := ∅; pendingUpdates := ∅ |}.

Definition node_n1 : CanvasNode :=
  mkNode "n1" (<["x" := JNum 0]> (<["y" := JNum 0]> ∅)).

Definition node_n2 : CanvasNode :=
  mkNode "n2" (<["x" := JNum 10]> (<["y" := JNum 20]> ∅)).

Definition props_x5 : PartialCanvasNode :=
  mkPartial None (<["x" := JNum 5]> ∅).

Definition edge_e1 : Edge := mkEdge "e1" "n1" "n2".

Definition convergence_actions : list (RealtimeAction * string) :=
  [ (NodeUpdate "n1" props_x5, "alice");
    (CursorMove 3 4 "red", "alice");
    (NodeCreate node_n1, "alice");
    (NodeCreate node_n2, "bob");
    (EdgeCreate edge_e1, "bob");
    (SpaceTitle "plan", "alice");
    (NodeDelete "n2", "bob") ].

Definition state_with_cursor : State :=
  setCursors (<["carol" := mkCursor 1 2 "blue"]>) empty_state.

Definition dangling_state : State :=
  setDoc (with_edges [edge_e1]) empty_state.

(** The three grounds of the gate: no recorded owner ([doc.userId] absent or
    empty), the authenticated identity is the owner, or a session token is
    established. *)
Definition send_permitted (h : Hook) : Prop :=
  userId (hook_doc h) = None ∨ userId (hook_doc h) = Some "" ∨
  userId (hook_doc h) = Some (session_userId h) ∨ sessionToken h ≠ "".

(** [h'] follows [h] by a handler that offers [a] to the gate. *)
Definition gated (h h' : Hook) (a : RealtimeAction) : Prop :=
  (send_permitted h → outbox h' = outbox h ++ [a]) ∧
  (¬ send_permitted h → outbox h' = outbox h).

(** The example of the spec: a document owned by ["U1"], viewed by ["U2"]
    with no session token. *)
Definition viewer_hook : Hook :=
  {| hook_state :=
       setDoc (λ d, {| doc_id := doc_id d; title := title d; userId := Some "U1";
                       backgroundColor := backgroundColor d;
                       nodes := nodes d; edges := edges d |}) empty_state;
     session_userId := "U2"; sessionToken := ""; outbox := []; sendUpdate := None |}.

Definition state_n1 : State := apply (NodeCreate node_n1) "alice" empty_state.

Definition state_n1_e1 : State :=
  apply (EdgeCreate edge_e1) "alice" (apply (NodeCreate node_n2) "alice" state_n1).

Definition is_create (a : RealtimeAction) : bool :=
  match a with
  | NodeCreate _ | EdgeCreate _ => true
  | _ => false
  end.

(** A [node:update] that finds its node does not give it another id. *)
Definition update_keeps_id (s : State) (a : RealtimeAction) : Prop :=
  match a with
  | NodeUpdate id props =>
      Forall (λ m, node_id m ≠ id) (nodes (doc s)) ∨
      part_id props = None ∨ part_id props = Some id
  | _ => True
  end.

Definition props_rename : PartialCanvasNode := mkPartial (Some "n2") ∅.

Definition props_rename_x5 : PartialCanvasNode :=
  mkPartial (Some "n2") (<["x" := JNum 5]> ∅).

(** ** Predicates on reducer states and action sequences *)

(** The ids of the nodes of a document, in order. *)
Definition node_ids (d : Doc) : list string := node_id <$> nodes d.

(** An action whose [props] carry no [id] field. *)
Definition id_free (a : RealtimeAction) : Prop :=
  match a with
  | NodeUpdate _ props => part_id props = None
  | _ => True
  end.

(** Every buffered fragment is for an id the document does not have, and
    carries no [id] field itself. *)
Definition buffer_disjoint (s : State) : Prop :=
  ∀ n p, pendingUpdates s !! n = Some p →
         part_id p = None ∧ n ∉ node_ids (doc s).

(** Both ends of every edge are nodes of the document. *)
Definition edges_closed (d : Doc) : Prop :=
  Forall (λ e, fromNode e ∈ node_ids d ∧ toNode e ∈ node_ids d) (edges d).

(** What an action needs for [edges_closed] to survive it. *)
Definition keeps_edges_closed (s : State) (a : RealtimeAction) : Prop :=
  match a with
  | NodeCreate node =>
      ∀ p, pendingUpdates s !! node_id node = Some p → part_id p = None
  | NodeUpdate _ props => part_id props = None
  | EdgeCreate e => fromNode e ∈ node_ids (doc s) ∧ toNode e ∈ node_ids (doc s)
  | _ => True
  end.

(** What an action needs for the node ids to stay pairwise distinct. *)
Definition keeps_ids_unique (s : State) (a : RealtimeAction) : Prop :=
  match a with
  | NodeCreate node =>
      (node_id node ∉ node_ids (doc s)) ∧
      ∀ p, pendingUpdates s !! node_id node = Some p → part_id p = None
  | NodeUpdate _ props => part_id props = None
  | _ => True
  end.

(** The presence actions. *)
Definition is_presence (a : RealtimeAction) : bool :=
  match a with
  | CursorMove _ _ _ | NodeSelect _ _ => true
  | _ => false
  end.

(** The title carried by the last [space:title] of a sequence, if any. *)
Fixpoint last_title (acts : list (RealtimeAction * string)) : option string :=
  match acts with
  | [] => None
  | a :: rest =>
      match last_title rest with
      | Some t => Some t
      | None => match a.1 with SpaceTitle t => Some t | _ => None end
      end
  end.

(** The colour carried by the last [space:background] of a sequence, if any. *)
Fixpoint last_background (acts : list (RealtimeAction * string)) : option string :=
  match acts with
  | [] => None
  | a :: rest =>
      match last_background rest with
      | Some c => Some c
      | None => match a.1 with SpaceBackground c => Some c | _ => None end
      end
  end.

(** ** More sample data *)

(** A signed-in owner of a document with one node. *)
Definition owner_hook : Hook :=
  {| hook_state :=
       setDoc (λ d, {| doc_id := doc_id d; title := title d; userId := Some "U1";
                       backgroundColor := backgroundColor d;
                       nodes := nodes d; edges := edges d |}) state_n1;
     session_userId := "U1"; sessionToken := ""; outbox := []; sendUpdate := None |}.

(** ** The session token *)

(** The key [`spacenotes-session:${doc.id}`] of [sessionStorage]. *)
Definition session_key (docId : string) : string := "spacenotes-session:" +:+ docId.

(** The effect on [doc.id] that looks for a session token. [url_session] is
    [url.searchParams.get('session')], [storage] is [sessionStorage], [tok]
    the current [sessionToken] state; the result is the storage and the
    state after the effect. *)
Definition session_effect (d : Doc) (url_session : option string)
    (storage : gmap string string) (tok : string) : gmap string string * string :=
  if truthy (doc_id d) then
    let fromUrl := default "" url_session in
    let stored := default "" (storage !! session_key (doc_id d)) in
    let token := if truthy fromUrl then fromUrl else stored in
    if truthy token
    then (<[session_key (doc_id d) := token]> storage, token)
    else (storage, tok)
  else (storage, tok).

(** [onShareSession()]; [rid] is the token [randomId()] returns. The third
    component is the [session] parameter of the link written to the
    clipboard, [None] when nothing is shared. *)
Definition onShareSession (d : Doc) (rid : string)
    (storage : gmap string string) (tok : string)
    : gmap string string * string * option string :=
  if truthy (doc_id d)
  then (<[session_key (doc_id d) := rid]> storage, rid, Some rid)
  else (storage, tok, None).

(** A second document, with another id. *)
Definition other_doc : Doc :=
  {| doc_id := "d2"; title := "other"; userId := Some "U1"; backgroundColor := None;
     nodes := []; edges := [] |}.

(** ** The debounced presence senders *)

(** [cursorColor] and the latest arguments held by the debounced
    [sendCursor] and [sendSelection] (see [sendUpdate_call] for the model of
    [debounce]). *)
Record PresenceSenders := mkPresenceSenders {
  cursorColor : string;
  sendCursor : option (Z * Z);
  sendSelection : option (list string);
}.

(** [onCursorMove(x, y)]: only the debounced sender is called. *)
Definition onCursorMove (x y : Z) (ps : PresenceSenders) : PresenceSenders :=
  {| cursorColor := cursorColor ps; sendCursor := Some (x, y);
     sendSelection := sendSelection ps |}.

(** [onSelectNodes(ids)]. *)
Definition onSelectNodes (ids : list string) (ps : PresenceSenders) : PresenceSenders :=
  {| cursorColor := cursorColor ps; sendCursor := sendCursor ps;
     sendSelection := Some ids |}.

(** The window of [sendCursor] elapses:
    [sendIfAllowed({ type: 'cursor:move', x, y, color: cursorColor.current })]. *)
Definition sendCursor_elapse (h : Hook) (ps : PresenceSenders) : Hook * PresenceSenders :=
  match sendCursor ps with
  | Some (x, y) =>
      (sendIfAllowed (CursorMove x y (cursorColor ps)) h,
       {| cursorColor := cursorColor ps; sendCursor := None;
          sendSelection := sendSelection ps |})
  | None => (h, ps)
  end.

(** The window of [sendSelection] elapses. *)
Definition sendSelection_elapse (h : Hook) (ps : PresenceSenders) : Hook * PresenceSenders :=
  match sendSelection ps with
  | Some ids =>
      (sendIfAllowed (NodeSelect ids (cursorColor ps)) h,
       {| cursorColor := cursorColor ps; sendCursor := sendCursor ps;
          sendSelection := None |})
  | None => (h, ps)
  end.

(** A pointer move then a selection, each followed by its window. *)
Definition move_then_select (x y : Z) (ids : list string)
    (h : Hook) (ps : PresenceSenders) : Hook * PresenceSenders :=
  let r1 := sendCursor_elapse h (onCursorMove x y ps) in
  sendSelection_elapse r1.1 (onSelectNodes ids r1.2).

(** ** [useInitApp] *)

Module InitApp.

(** [isLocked = doc.userId !== userId]. *)
Definition isLocked (d : Doc) (uid : string) : bool := bool_decide (userId d ≠ Some uid).

(** What the hook asks of its collaborators. *)
Inductive Effect :=
  | SaveDoc (d : Doc) (uid : string)
  | SaveDocBeacon (d : Doc) (access_token uid : string)
  | LoadDoc (id : string)
  | SetUrlId (id : string) (doc_title : option string)
  | SetPendingFork (payload : string)
  | RemovePendingFork
  | Navigate (href : string)
  | PreventDefault.

(** The document and the [originalDoc] ref. *)
Record InitState := mkInitState {
  init_doc : Doc;
  originalDoc : string;
}.

(** [{ ...doc, id, userId }]. *)
Definition with_id_owner (id uid : string) (d : Doc) : Doc :=
  {| doc_id := id; title := title d; userId := Some uid;
     backgroundColor := backgroundColor d; nodes := nodes d; edges := edges d |}.

(** [{ ...prevDoc, userId }]. *)
Definition with_owner (uid : string) (d : Doc) : Doc :=
  {| doc_id := doc_id d; title := title d; userId := Some uid;
     backgroundColor := backgroundColor d; nodes := nodes d; edges := edges d |}.

(** [{ ...prevDoc, id }]. *)
Definition with_id (id : string) (d : Doc) : Doc :=
  {| doc_id := id; title := title d; userId := userId d;
     backgroundColor := backgroundColor d; nodes := nodes d; edges := edges d |}.

Section Serialised.
(** [JSON.stringify] on documents, and [JSON.parse] with [None] for the
    exception it throws. *)
Variable stringify : Doc → string.
Variable parse : string → option Doc.

(** [stringDoc !== originalDoc.current]. *)
Definition changed (st : InitState) : bool :=
  bool_decide (stringify (init_doc st) ≠ originalDoc st).

(** The [beforeunload] callback. [uid] is [session?.user?.id || ''],
    [access_token] is [session?.access_token], [confirmFork] the answer
    [window.confirm] gives when it is asked, [rid] what [randomId()]
    returns. *)
Definition onBeforeUnload (uid : string) (access_token : option string)
    (confirmFork : bool) (rid : string) (st : InitState) : list Effect :=
  let d := init_doc st in
  if bool_decide (userId d = Some uid) then
    if truthy (doc_id d) && truthy (title d) && changed st then
      match access_token with
      | Some tok =>
          if truthy tok then [SaveDocBeacon d tok uid]
          else if truthy uid then [SaveDoc d uid] else []
      | None => if truthy uid then [SaveDoc d uid] else []
      end
    else []
  else if changed st then
    if confirmFork then
      (if truthy uid then
         let newDoc := with_id_owner rid uid d in
         match access_token with
         | Some tok =>
             if truthy tok then [SaveDocBeacon newDoc tok uid] else [SaveDoc newDoc uid]
         | None => [SaveDoc newDoc uid]
         end
       else [SetPendingFork (stringify d); Navigate "/"])
      ++ [PreventDefault]
    else []
  else [].

(** The effect on [userId] that completes a pending fork. [stored] is
    [localStorage.getItem(PENDING_FORK_KEY)], [save_ok] tells whether the
    promise of [saveDoc] is fulfilled. The result is the state, the stored
    item and the requests made. *)
Definition pendingForkEffect (uid : string) (stored : option string) (rid : string)
    (save_ok : bool) (st : InitState) : InitState * option string * list Effect :=
  if truthy uid then
    match stored with
    | Some payload =>
        if truthy payload then
          match parse payload with
          | Some saved =>
              let newDoc := with_id_owner rid uid saved in
              if save_ok
              then ({| init_doc := newDoc; originalDoc := stringify newDoc |}, None,
                    [SaveDoc newDoc uid; SetUrlId (doc_id newDoc) (Some (title newDoc));
                     RemovePendingFork])
              else (st, stored, [SaveDoc newDoc uid])
          | None => (st, stored, [])
          end
        else (st, stored, [])
    | None => (st, stored, [])
    end
  else (st, stored, []).

(** The effect that loads the document named in the URL. [url_id] is
    [getUrlId()], [loaded] the document [loadDoc] resolves with, if it
    does. *)
Definition loadEffect (url_id : option string) (rid : string) (loaded : option Doc)
    (st : InitState) : InitState * list Effect :=
  match url_id with
  | Some id =>
      if truthy id then
        if bool_decide (doc_id (init_doc st) ≠ id) then
          match loaded with
          | Some newDoc =>
              ({| init_doc := newDoc; originalDoc := stringify newDoc |},
               [LoadDoc id; SetUrlId (doc_id newDoc) (Some (title newDoc))])
          | None =>
              ({| init_doc := with_id id (init_doc st); originalDoc := originalDoc st |},
               [LoadDoc id])
          end
        else (st, [])
      else ({| init_doc := with_id rid (init_doc st); originalDoc := originalDoc st |},
            [SetUrlId rid None])
  | None => ({| init_doc := with_id rid (init_doc st); originalDoc := originalDoc st |},
             [SetUrlId rid None])
  end.

(** [onFork()]. *)
Definition onFork (uid : string) (save_ok : bool) (st : InitState)
    : InitState * list Effect :=
  if truthy uid then
    let newDoc := with_owner uid (init_doc st) in
    ({| init_doc := newDoc;
        originalDoc := if save_ok then stringify newDoc else originalDoc st |},
     [SaveDoc newDoc uid; SetUrlId (doc_id newDoc) (Some (title newDoc))])
  else (st, []).
End Serialised.

(** Whether an effect saves a document, and which. *)
Definition saved_doc (e : Effect) : option Doc :=
  match e with
  | SaveDoc d _ | SaveDocBeacon d _ _ => Some d
  | _ => None
  end.

(** A toy serialiser, for sample runs: the id stands for the document. *)
Definition sample_stringify (d : Doc) : string := doc_id d.

Definition sample_parse (s : string) : option Doc :=
  if bool_decide (s = "d2") then Some other_doc else None.

Definition edited_state : InitState :=
  {| init_doc := other_doc; originalDoc := "" |}.

End InitApp.

(** ** [Editable]: the pointer handlers *)

Module Editable.

Definition DRAG_THRESHOLD : Z := 3.

(** The fields of a pointer event the handlers read. *)
Record PointerEvent := mkPointerEvent {
  isPrimary : bool;
  clientX : Z;
  clientY : Z;
}.

(** [pointerDownRef.current] and the [isFocused] state. *)
Record EditState := mkEditState {
  pointerDownRef : option (Z * Z);
  isFocused : bool;
}.

(** What a handler does to the event and the page. *)
Inductive DomEffect :=
  | Focus
  | ClearSelection
  | StopPropagation
  | PreventDefault.

#[global] Instance DomEffect_eq_dec : EqDecision DomEffect.
Proof. solve_decision. Defined.

(** Whether a move leaves the threshold around the press. *)
Definition beyond_threshold (p : Z * Z) (e : PointerEvent) : bool :=
  (DRAG_THRESHOLD <? Z.abs (clientX e - p.1))%Z || (DRAG_THRESHOLD <? Z.abs (clientY e - p.2))%Z.

Definition onPointerDown (e : PointerEvent) (st : EditState) : EditState * list DomEffect :=
  ({| pointerDownRef := if isPrimary e then Some (clientX e, clientY e)
                        else pointerDownRef st;
      isFocused := isFocused st |},
   if isFocused st then [] else [ClearSelection]).

Definition onPointerMove (e : PointerEvent) (st : EditState) : EditState * list DomEffect :=
  ({| pointerDownRef :=
        match pointerDownRef st with
        | Some p => if isPrimary e && beyond_threshold p e then None else Some p
        | None => None
        end;
      isFocused := isFocused st |},
   if isFocused st then [StopPropagation] else [ClearSelection; PreventDefault]).

Definition onPointerUp (e : PointerEvent) (st : EditState) : EditState * list DomEffect :=
  ({| pointerDownRef := None; isFocused := isFocused st |},
   match pointerDownRef st with
   | Some _ => if isPrimary e then [Focus] else []
   | None => []
   end).

Definition onPointerLeave (st : EditState) : EditState :=
  {| pointerDownRef := None; isFocused := isFocused st |}.

(** A run of pointer moves. *)
Definition moves (es : list PointerEvent) (st : EditState) : EditState :=
  fold_left (λ s e, (onPointerMove e s).1) es st.

(** The move stays within the threshold of the press, or is not of the
    primary pointer. *)
Definition stays_put (p : Z * Z) (e : PointerEvent) : Prop :=
  isPrimary e = true →
  (Z.abs (clientX e - p.1) ≤ DRAG_THRESHOLD)%Z ∧ (Z.abs (clientY e - p.2) ≤ DRAG_THRESHOLD)%Z.

End Editable.

(** The two deleting actions. *)
Definition is_delete (a : RealtimeAction) : bool :=
  match a with
  | NodeDelete _ | EdgeDelete _ _ => true
  | _ => false
  end.

(** ** Bursts of node updates *)

(** [onNodeUpdate] called for each element of a burst, within one window of
    the debounced sender. *)
Definition onNodeUpdates (state_onNodeUpdate : string → PartialCanvasNode → Doc → Doc)
    (burst : list (string * PartialCanvasNode)) (h : Hook) : Hook :=
  fold_left (λ h u, onNodeUpdate state_onNodeUpdate u.1 u.2 h) burst h.

(** The document after the edits of a burst. *)
Definition edits_of (state_onNodeUpdate : string → PartialCanvasNode → Doc → Doc)
    (burst : list (string * PartialCanvasNode)) (d : Doc) : Doc :=
  fold_left (λ d u, state_onNodeUpdate u.1 u.2 d) burst d.

(** A sample [onNodeUpdate] for [useDocState]: the props go into the first
    node with the id. *)
Definition sample_onNodeUpdate (id : string) (props : PartialCanvasNode) (d : Doc) : Doc :=
  match list_find (has_id id) (nodes d) with
  | Some (i, node) => with_nodes (<[i := assign_node node props]> (nodes d)) d
  | None => d
  end.

(** A signed-in owner of a document with two nodes. *)
Definition owner_hook_two : Hook :=
  {| hook_state :=
       setDoc (λ d, {| doc_id := doc_id d; title := title d; userId := Some "U1";
                       backgroundColor := backgroundColor d;
                       nodes := nodes d; edges := edges d |}) state_n1_e1;
     session_userId := "U1"; sessionToken := ""; outbox := []; sendUpdate := None |}.

(** A cursor move, then an update, a delete and a create of the same node. *)
Definition race_actions : list (RealtimeAction * string) :=
  [ (CursorMove 3 4 "red", "alice");
    (NodeUpdate "n1" props_x5, "alice");
    (NodeDelete "n1", "alice");
    (NodeCreate node_n1, "alice") ].

(** * Properties *)

(** ** Object.assign *)

Lemma assign_node_idemp (node : CanvasNode) (props : PartialCanvasNode) :
  assign_node (assign_node node props) props = assign_node node props.
Proof.
  unfold assign_node; simpl. f_equal.
  - by destruct (part_id props).
  - by rewrite (assoc_L (∪)), (idemp_L (∪)).
Qed.

Lemma assign_partial_idemp (pending props : PartialCanvasNode) :
  assign_partial (assign_partial pending props) props = assign_partial pending props.
Proof.
  unfold assign_partial; simpl. f_equal.
  - by destruct (part_id props), (part_id pending).
  - by rewrite (assoc_L (∪)), (idemp_L (∪)).
Qed.

Lemma assign_node_keeps_id (id : string) (node : CanvasNode) (props : PartialCanvasNode) :
  node_id node = id →
  part_id props = None ∨ part_id props = Some id →
  node_id (assign_node node props) = id.
Proof. intros Hid [Hp | Hp]; unfold assign_node; simpl; by rewrite Hp. Qed.

(** ** The first node with an id *)

Lemma find_none_iff (id : string) (ns : list CanvasNode) :
  list_find (has_id id) ns = None ↔ Forall (λ m, node_id m ≠ id) ns.
Proof. apply list_find_None. Qed.

Lemma find_appended (ns : list CanvasNode) (node : CanvasNode) :
  Forall (λ m, node_id m ≠ node_id node) ns →
  list_find (has_id (node_id node)) (ns ++ [node]) = Some (length ns, node).
Proof.
  intros Hns. rewrite list_find_app_r by by apply find_none_iff.
  simpl. by rewrite decide_True.
Qed.

Lemma insert_appended (ns : list CanvasNode) (node node' : CanvasNode) :
  <[length ns := node']> (ns ++ [node]) = ns ++ [node'].
Proof. by rewrite insert_app_r_alt, Nat.sub_diag by lia. Qed.

(** ** Calls, renders and the reducer *)

Lemma render_idle (s : State) : render (idle s) = idle s.
Proof. reflexivity. Qed.

Lemma apply_split (a : RealtimeAction) (x : string) (s : State) :
  after_setters a (updaters a x s) = apply a x s.
Proof. by destruct a. Qed.

Lemma call_idle (a : RealtimeAction) (x : string) (s : State) :
  call a x (idle s)
  = {| store := apply a x s; queue := []; scheduled := negb (returns_same a s) |}.
Proof. unfold call, idle; simpl. by rewrite apply_split. Qed.

(** A call made with nothing pending, and the render after it, is [apply]. *)
Lemma render_call_idle (a : RealtimeAction) (x : string) (s : State) :
  render (call a x (idle s)) = idle (apply a x s).
Proof. by rewrite call_idle. Qed.

(** Calls that are each rendered before the next are the fold of [apply]. *)
Lemma calls_rendered_apply_all (acts : list (RealtimeAction * string)) (s : State) :
  calls_rendered acts (idle s) = idle (apply_all acts s).
Proof.
  revert s. induction acts as [|[a x] acts IH]; intros s; [done|].
  unfold calls_rendered, apply_all in *. simpl. rewrite render_call_idle. apply IH.
Qed.

(** C1. Convergence fails across render timing. Two clients start from the
    same empty document and receive the same four actions in the same
    order: a cursor move, then [node:update], [node:delete] and
    [node:create] for ["n1"]. The client that renders after every action
    ends with the node as created ([x] is 0). The client that receives them
    between two renders runs the [delete] of the buffer before the queued
    updater of the update has buffered anything, and ends with the node
    carrying the update ([x] is 5). The two final documents differ. *)
Theorem render_timing_diverges :
  let a := calls_rendered race_actions (idle empty_state) in
  let b := calls_batched race_actions (idle empty_state) in
  nodes (doc (store a)) = [node_n1] ∧
  nodes (doc (store b)) = [assign_node node_n1 props_x5] ∧
  node_attrs node_n1 !! "x" = Some (JNum 0) ∧
  node_attrs (assign_node node_n1 props_x5) !! "x" = Some (JNum 5) ∧
  doc (store a) ≠ doc (store b).
Proof.
  split_and!; [by vm_compute..|].
  intros H. apply (f_equal (λ d, (λ m, node_attrs m !! "x") <$> nodes d)) in H.
  vm_compute in H. discriminate.
Qed.

(** ** The pending-update buffer *)

(** An update for an id the document does not have is buffered. *)
Lemma update_absent (s : State) (n sender : string) (props : PartialCanvasNode) :
  Forall (λ m, node_id m ≠ n) (nodes (doc s)) →
  apply (NodeUpdate n props) sender s
  = setPending
      (<[n := assign_partial (default empty_partial (pendingUpdates s !! n)) props]>) s.
Proof.
  intros Hn. simpl. by rewrite (proj2 (find_none_iff n _) Hn).
Qed.

(** A create for an id the document does not have, with a fragment buffered:
    the fragment goes into the new node, and the key removed from the buffer
    is the id the new node has after that. *)
Lemma create_flushes (s : State) (sender : string) (node : CanvasNode)
    (p : PartialCanvasNode) :
  Forall (λ m, node_id m ≠ node_id node) (nodes (doc s)) →
  pendingUpdates s !! node_id node = Some p →
  apply (NodeCreate node) sender s
  = setPending (delete (node_id (assign_node node p)))
      (setDoc (with_nodes (nodes (doc s) ++ [assign_node node p])) s).
Proof.
  intros Hn Hp. simpl. rewrite Hp, (find_appended _ _ Hn).
  rewrite decide_True by done. by rewrite insert_appended.
Qed.

(** A create with nothing buffered for its id appends the node as it is. *)
Lemma create_plain (s : State) (sender : string) (node : CanvasNode) :
  pendingUpdates s !! node_id node = None →
  apply (NodeCreate node) sender s = setDoc (with_nodes (nodes (doc s) ++ [node])) s.
Proof. intros Hp. simpl. by rewrite Hp. Qed.

(** C2. The discard misses its key. [node:update{id:"n1"}] with props that
    carry the id ["n2"] is buffered under ["n1"]; [node:create] of a node
    ["n1"] merges the fragment into the new node and then deletes the buffer
    key read from [action.node.id], which the merge has just overwritten with
    ["n2"]: the document holds no node ["n1"], and the fragment for ["n1"]
    is still buffered. *)
Lemma renaming_fragment_not_discarded :
  let s2 := apply (NodeCreate node_n1) "bob"
              (apply (NodeUpdate "n1" props_rename_x5) "alice" empty_state) in
  node_id <$> nodes (doc s2) = ["n2"] ∧
  pendingUpdates s2 !! "n1" = Some props_rename_x5.
Proof. by vm_compute. Qed.

(** Where the discard works: when the document has no node with id [n],
    [node:update{id:n, props}] leaves the document unchanged and buffers
    [props] under [n], each field of [props] replacing what the buffer held
    for it. If the fragment then buffered carries no id other than [n], a
    [node:create] for a node with id [n], applied right after or in any later
    state that still buffers a fragment for [n] and has no such node, appends
    the node with the fragment merged into it and removes the fragment from
    the buffer. *)
Lemma pending_update_resolution (s : State) (n : string) (props : PartialCanvasNode)
    (node : CanvasNode) (sender1 sender2 : string) :
  plain_id n = true →
  Forall (λ m, node_id m ≠ n) (nodes (doc s)) →
  node_id node = n →
  let old := default empty_partial (pendingUpdates s !! n) in
  let buffered := assign_partial old props in
  let s1 := apply (NodeUpdate n props) sender1 s in
  let s2 := apply (NodeCreate node) sender2 s1 in
  doc s1 = doc s ∧
  pendingUpdates s1 = <[n := buffered]> (pendingUpdates s) ∧
  (∀ k, part_attrs buffered !! k
        = match part_attrs props !! k with
          | Some v => Some v
          | None => part_attrs old !! k
          end) ∧
  (part_id buffered = None ∨ part_id buffered = Some n →
     nodes (doc s2) = nodes (doc s) ++ [assign_node node buffered] ∧
     node_id (assign_node node buffered) = n ∧
     (∀ k v, part_attrs props !! k = Some v →
             node_attrs (assign_node node buffered) !! k = Some v) ∧
     with_nodes (nodes (doc s)) (doc s2) = doc s ∧
     pendingUpdates s2 = delete n (pendingUpdates s)) ∧
  (∀ (s' : State) (p : PartialCanvasNode) (sender' : string),
     Forall (λ m, node_id m ≠ n) (nodes (doc s')) →
     pendingUpdates s' !! n = Some p →
     part_id p = None ∨ part_id p = Some n →
     nodes (doc (apply (NodeCreate node) sender' s')) = nodes (doc s') ++ [assign_node node p] ∧
     edges (doc (apply (NodeCreate node) sender' s')) = edges (doc s') ∧
     pendingUpdates (apply (NodeCreate node) sender' s') = delete n (pendingUpdates s')).
Proof.
  intros _ Hn Hid old buffered s1 s2.
  assert (Hs1 : s1 = setPending (<[n := buffered]>) s) by by apply update_absent.
  assert (Hlww : ∀ k, part_attrs buffered !! k
        = match part_attrs props !! k with
          | Some v => Some v
          | None => part_attrs old !! k
          end).
  { intros k. unfold buffered, assign_partial; simpl. rewrite lookup_union.
    by destruct (part_attrs props !! k), (part_attrs old !! k). }
  split_and!.
  - by rewrite Hs1.
  - by rewrite Hs1.
  - exact Hlww.
  - intros Hb.
    assert (Hkey : node_id (assign_node node buffered) = n)
      by by apply assign_node_keeps_id.
    assert (Hs2 : s2 = setPending (delete n)
                (setDoc (with_nodes (nodes (doc s1) ++ [assign_node node buffered])) s1)).
    { subst s2. rewrite <- Hkey at 1. apply create_flushes.
      - rewrite Hid, Hs1. exact Hn.
      - rewrite Hid, Hs1. simpl. apply lookup_insert_eq. }
    split_and!.
    + by rewrite Hs2, Hs1.
    + exact Hkey.
    + intros k v Hk. unfold assign_node; simpl. rewrite lookup_union, Hlww, Hk.
      by destruct (node_attrs node !! k).
    + rewrite Hs2, Hs1. simpl. by destruct (doc s).
    + rewrite Hs2, Hs1. simpl. apply delete_insert_eq.
  - intros s' p sender' Hn' Hp' Hb. rewrite <- Hid in Hn', Hp'.
    rewrite (create_flushes s' sender' node p Hn' Hp').
    by rewrite (assign_node_keeps_id n node p Hid Hb).
Qed.

(** The example of the spec: [node:update{id:"n1",props:{x:5}}] applied
    before [node:create{node:{id:"n1",x:0,y:0}}] leaves a node [n1] whose [x]
    is 5. *)
Lemma pending_update_resolution_sample :
  nodes (doc (apply (NodeCreate node_n1) "bob"
                (apply (NodeUpdate "n1" props_x5) "alice" empty_state)))
  = [assign_node node_n1 (assign_partial empty_partial props_x5)] ∧
  node_id (assign_node node_n1 (assign_partial empty_partial props_x5)) = "n1" ∧
  node_attrs (assign_node node_n1 (assign_partial empty_partial props_x5)) !! "x"
  = Some (JNum 5).
Proof.
  pose proof (pending_update_resolution empty_state "n1" props_x5 node_n1 "alice" "bob"
                eq_refl (Forall_nil_2 _) eq_refl) as H.
  simpl in H. destruct H as (_ & _ & _ & H & _).
  destruct (H (or_introl eq_refl)) as (Hnodes & Hid & Hattr & _).
  split_and!.
  - exact Hnodes.
  - exact Hid.
  - apply Hattr. reflexivity.
Defined.

Example pending_example_x :
  (λ m, (node_id m, node_attrs m !! "x", node_attrs m !! "y")) <$>
    nodes (doc (apply (NodeCreate node_n1) "bob"
                  (apply (NodeUpdate "n1" props_x5) "alice" empty_state)))
  = [("n1", Some (JNum 5), Some (JNum 0))].
Proof. vm_compute. reflexivity. Qed.

(** ** Deleting a node *)


Lemma delete_state (s : State) (n sender : string) :
  apply (NodeDelete n) sender s
  = setPending (delete n)
      (setDoc (λ d, with_edges (filter (edge_avoids n) (edges d))
                      (with_nodes (filter (λ m, node_id m ≠ n) (nodes d)) d)) s).
Proof. reflexivity. Qed.

(** The state with the dangling edge is one the reducer reaches. *)
Example dangling_state_reached :
  apply (EdgeCreate edge_e1) "bob" empty_state = dangling_state.
Proof. reflexivity. Qed.






Example delete_discards_example :
  nodes (doc (apply (NodeCreate node_n1) "bob"
           (apply (NodeDelete "n1") "bob"
              (apply (NodeUpdate "n1" props_x5) "alice" empty_state))))
  = [node_n1].
Proof. reflexivity. Qed.

(** ** Cascade *)

Lemma filter_ext_eq {A} (P Q : A → Prop) `{!∀ x, Decision (P x)} `{!∀ x, Decision (Q x)}
    (l : list A) :
  (∀ x, P x ↔ Q x) → filter P l = filter Q l.
Proof.
  intros HPQ. induction l as [|x l IH]; [done|].
  destruct (decide (P x)) as [HP | HP].
  - rewrite (filter_cons_True P) by done.
    rewrite (filter_cons_True Q) by by apply HPQ. by rewrite IH.
  - rewrite (filter_cons_False P) by done.
    rewrite (filter_cons_False Q) by by rewrite <- HPQ. done.
Qed.

(** C4. Cascade delete: [node:delete{id:n1}] keeps, in their order, exactly
    the nodes whose id is not [n1] and exactly the edges that have [n1] at
    neither end, and leaves the other fields of the document alone; the local
    [onNodeDelete] leaves the same document as the received action. *)
Theorem cascade_delete (h : Hook) (n1 sender : string) :
  let s := hook_state h in
  let s' := apply (NodeDelete n1) sender s in
  nodes (doc s') = filter (λ m, node_id m ≠ n1) (nodes (doc s)) ∧
  edges (doc s') = filter (edge_avoids n1) (edges (doc s)) ∧
  (∀ m, m ∈ nodes (doc s') ↔ m ∈ nodes (doc s) ∧ node_id m ≠ n1) ∧
  (∀ e, e ∈ edges (doc s') ↔ e ∈ edges (doc s) ∧ ¬ (fromNode e = n1 ∨ toNode e = n1)) ∧
  with_edges (edges (doc s)) (with_nodes (nodes (doc s)) (doc s')) = doc s ∧
  hook_doc (onNodeDelete docState_onNodeDelete n1 h) = doc s'.
Proof.
  intros s s'. subst s'. rewrite delete_state. simpl. split_and!.
  - done.
  - done.
  - intros m. by rewrite list_elem_of_filter, (comm (∧)).
  - intros e. rewrite list_elem_of_filter. unfold edge_avoids. tauto.
  - by destruct (doc s).
  - unfold onNodeDelete, hook_doc, docState_onNodeDelete, sendIfAllowed.
    destruct (canSendRef h); simpl; fold s; f_equal;
      apply filter_ext_eq; intros e; unfold edge_avoids; tauto.
Qed.

Example cascade_example :
  let s := apply (EdgeCreate edge_e1) "bob"
             (apply (NodeCreate node_n2) "bob"
                (apply (NodeCreate node_n1) "alice" empty_state)) in
  edges (doc s) = [edge_e1] ∧
  nodes (doc (apply (NodeDelete "n1") "alice" s)) = [node_n2] ∧
  edges (doc (apply (NodeDelete "n1") "alice" s)) = [].
Proof. by vm_compute. Qed.

(** ** The send gate *)

Lemma truthy_true (s : string) : truthy s = true ↔ s ≠ "".
Proof. unfold truthy. by rewrite bool_decide_eq_true. Qed.

Lemma canSendRef_permitted (h : Hook) : canSendRef h = true ↔ send_permitted h.
Proof.
  unfold canSendRef, canSend, send_permitted.
  rewrite !orb_true_iff, negb_true_iff, bool_decide_eq_true, truthy_true.
  destruct (userId (hook_doc h)) as [o|]; simpl.
  - unfold truthy. rewrite bool_decide_eq_false.
    destruct (decide (o = "")) as [-> | Ho].
    + split; [|tauto]. intros _. right; by left.
    + split.
      * intros [[Ht | Ho'] | Htok]; [tauto | | tauto]. right; right; by left.
      * intros [Hn | [He | [Hu | Htok]]]; [done | congruence | | tauto].
        left; by right.
  - split; [|tauto]. intros _. by left.
Qed.

Lemma sendIfAllowed_gated (h : Hook) (a : RealtimeAction) :
  gated h (sendIfAllowed a h) a ∧ hook_state (sendIfAllowed a h) = hook_state h.
Proof.
  unfold gated, sendIfAllowed.
  destruct (canSendRef h) eqn:Hc; simpl.
  - apply canSendRef_permitted in Hc. naive_solver.
  - split; [|done]. split; [|done]. intros Hp%canSendRef_permitted. congruence.
Qed.

Lemma sendUpdate_elapse_gated (h : Hook) (id : string) (props : PartialCanvasNode) :
  sendUpdate h = Some (id, props) →
  hook_state (sendUpdate_elapse h) = hook_state h ∧
  gated h (sendUpdate_elapse h) (NodeUpdate id props).
Proof.
  intros Hslot. unfold sendUpdate_elapse. rewrite Hslot.
  match goal with |- context [sendIfAllowed ?a ?g] =>
    destruct (sendIfAllowed_gated g a) as [Hg Hst] end.
  split; [exact Hst | exact Hg].
Qed.

(** C5, as stated, fails for node updates: the debounced sender holds one
    pair of arguments for all nodes. The owner of a document updates node
    ["n1"] and then node ["n2"] within one window; both edits are in the
    document, the gate is open, and when the window elapses only the update
    of ["n2"] is handed to [send]: the edit of ["n1"] is never sent. *)
Lemma superseded_update_not_sent :
  let h := onNodeUpdates sample_onNodeUpdate
             [("n1", props_x5); ("n2", props_x5)] owner_hook_two in
  canSendRef owner_hook_two = true ∧
  canSendRef h = true ∧
  (λ m, (node_id m, node_attrs m !! "x")) <$> nodes (hook_doc h)
  = [("n1", Some (JNum 5)); ("n2", Some (JNum 5))] ∧
  outbox (sendUpdate_elapse h) = [NodeUpdate "n2" props_x5] ∧
  NodeUpdate "n1" props_x5 ∉ outbox (sendUpdate_elapse h).
Proof.
  split_and!; [by vm_compute..|].
  intros H. apply list_elem_of_singleton in H. discriminate.
Qed.

Lemma onNodeUpdates_snoc (f : string → PartialCanvasNode → Doc → Doc)
    (burst : list (string * PartialCanvasNode)) (id : string) (props : PartialCanvasNode)
    (h : Hook) :
  onNodeUpdates f (burst ++ [(id, props)]) h
  = onNodeUpdate f id props (onNodeUpdates f burst h).
Proof. unfold onNodeUpdates. by rewrite fold_left_app. Qed.

Lemma onNodeUpdates_edits (f : string → PartialCanvasNode → Doc → Doc)
    (burst : list (string * PartialCanvasNode)) (h : Hook) :
  hook_doc (onNodeUpdates f burst h) = edits_of f burst (hook_doc h) ∧
  outbox (onNodeUpdates f burst h) = outbox h.
Proof.
  revert h. induction burst as [|[id props] burst IH]; intros h; [done|].
  unfold onNodeUpdates, edits_of in *. simpl.
  destruct (IH (onNodeUpdate f id props h)) as [-> ->]. done.
Qed.

Lemma gated_only (h h' : Hook) (a : RealtimeAction) :
  gated h h' a → ∀ b, b ∈ outbox h' → b ∈ outbox h ∨ b = a.
Proof.
  intros [Hyes Hno] b Hb. destruct (canSendRef h) eqn:Hc.
  - apply canSendRef_permitted in Hc. rewrite (Hyes Hc) in Hb.
    apply elem_of_app in Hb as [Hb | Hb%list_elem_of_singleton]; auto.
  - left. rewrite <- Hno; [done|]. intros Hp%canSendRef_permitted. congruence.
Qed.

Section Gate.
Variable state_onNodeCreate : PartialCanvasNode → Doc → CanvasNode * Doc.
Variable state_onNodeDelete : string → Doc → Doc.
Variable state_onNodeUpdate : string → PartialCanvasNode → Doc → Doc.
Variable state_onDisconnect : string → string → Doc → Doc.
Variable state_onBackgroundColorChange : string → Doc → Doc.

(** C5, amended. The gate is open exactly when the document has no recorded
    owner, or the authenticated identity is the owner, or a session token is
    established. Node create and delete, connect, disconnect, background and
    title hand their action to [send] exactly when the gate is open, and
    otherwise nothing. Node updates are debounced: of a burst of updates
    within one window, the last one, and no other, is handed to [send] when
    the window elapses, exactly when the gate is open then. In every case the
    document in memory is the edited one. *)
Theorem send_gating (h : Hook) :
    (canSendRef h = true ↔ send_permitted h) ∧
    (∀ a, gated h (sendIfAllowed a h) a) ∧
    (∀ props,
       let r := onNodeCreate state_onNodeCreate props h in
       r.1 = (state_onNodeCreate props (hook_doc h)).1 ∧
       hook_doc r.2 = (state_onNodeCreate props (hook_doc h)).2 ∧
       gated h r.2 (NodeCreate r.1)) ∧
    (∀ id,
       let h' := onNodeDelete state_onNodeDelete id h in
       hook_doc h' = state_onNodeDelete id (hook_doc h) ∧ gated h h' (NodeDelete id)) ∧
    (∀ rid from to,
       let h' := onConnect rid from to h in
       hook_doc h' = with_edges (edges (hook_doc h) ++ [mkEdge rid from to]) (hook_doc h) ∧
       gated h h' (EdgeCreate (mkEdge rid from to))) ∧
    (∀ from to,
       let h' := onDisconnect state_onDisconnect from to h in
       hook_doc h' = state_onDisconnect from to (hook_doc h) ∧
       gated h h' (EdgeDelete from to)) ∧
    (∀ color,
       let h' := onBackgroundColorChange state_onBackgroundColorChange color h in
       hook_doc h' = state_onBackgroundColorChange color (hook_doc h) ∧
       gated h h' (SpaceBackground color)) ∧
    (∀ t,
       let h' := onTitleChange t h in
       hook_doc h' = with_title t (hook_doc h) ∧ gated h h' (SpaceTitle t)) ∧
    (∀ id props,
       let h' := onNodeUpdate state_onNodeUpdate id props h in
       hook_doc h' = state_onNodeUpdate id props (hook_doc h) ∧
       outbox h' = outbox h ∧
       sendUpdate h' = Some (id, props) ∧
       hook_doc (sendUpdate_elapse h') = hook_doc h' ∧
       gated h' (sendUpdate_elapse h') (NodeUpdate id props)) ∧
    (∀ burst id props,
       let h' := onNodeUpdates state_onNodeUpdate (burst ++ [(id, props)]) h in
       hook_doc h' = edits_of state_onNodeUpdate (burst ++ [(id, props)]) (hook_doc h) ∧
       outbox h' = outbox h ∧
       sendUpdate h' = Some (id, props) ∧
       hook_doc (sendUpdate_elapse h') = hook_doc h' ∧
       gated h' (sendUpdate_elapse h') (NodeUpdate id props) ∧
       (∀ a, a ∈ outbox (sendUpdate_elapse h') →
             a ∈ outbox h ∨ a = NodeUpdate id props)).
  Proof.
    split_and!.
    - apply canSendRef_permitted.
    - intros a. apply sendIfAllowed_gated.
    - intros props r. subst r. unfold onNodeCreate; simpl. split_and!; [done..|].
      destruct (sendIfAllowed_gated h
                  (NodeCreate (state_onNodeCreate props (hook_doc h)).1)) as [[H1 H2] _].
      split; intros Hp; simpl; auto.
    - intros id h'. subst h'. unfold onNodeDelete; simpl. split; [done|].
      destruct (sendIfAllowed_gated h (NodeDelete id)) as [[H1 H2] _].
      split; intros Hp; simpl; auto.
    - intros rid from to h'. subst h'. unfold onConnect; simpl. split; [done|].
      destruct (sendIfAllowed_gated h (EdgeCreate (mkEdge rid from to))) as [[H1 H2] _].
      split; intros Hp; simpl; auto.
    - intros from to h'. subst h'. unfold onDisconnect; simpl. split; [done|].
      destruct (sendIfAllowed_gated h (EdgeDelete from to)) as [[H1 H2] _].
      split; intros Hp; simpl; auto.
    - intros color h'. subst h'. unfold onBackgroundColorChange; simpl. split; [done|].
      destruct (sendIfAllowed_gated h (SpaceBackground color)) as [[H1 H2] _].
      split; intros Hp; simpl; auto.
    - intros t h'. subst h'. unfold onTitleChange; simpl. split; [done|].
      destruct (sendIfAllowed_gated h (SpaceTitle t)) as [[H1 H2] _].
      split; intros Hp; simpl; auto.
    - intros id props h'.
      destruct (sendUpdate_elapse_gated h' id props eq_refl) as [Hst Hg].
      split_and!; [done..| |exact Hg].
      unfold hook_doc. by rewrite Hst.
    - intros burst id props h'.
      destruct (onNodeUpdates_edits state_onNodeUpdate (burst ++ [(id, props)]) h)
        as [Hdoc Hout].
      assert (Hslot : sendUpdate h' = Some (id, props)).
      { subst h'. by rewrite onNodeUpdates_snoc. }
      destruct (sendUpdate_elapse_gated h' id props Hslot) as [Hst Hg].
      split_and!; [exact Hdoc|exact Hout|exact Hslot| |exact Hg|].
      + unfold hook_doc. by rewrite Hst.
      + intros a Ha. rewrite <- Hout. by apply (gated_only h' _ _ Hg).
  Qed.
End Gate.

Example send_gating_example :
  outbox (onTitleChange "draft" viewer_hook) = [] ∧
  title (hook_doc (onTitleChange "draft" viewer_hook)) = "draft" ∧
  outbox (onConnect "e9" "n1" "n2" viewer_hook) = [] ∧
  edges (hook_doc (onConnect "e9" "n1" "n2" viewer_hook)) = [mkEdge "e9" "n1" "n2"].
Proof. by vm_compute. Qed.

(** ** Room identity *)

(** C7, as stated, fails for the session-aware hook: with no session token
    the room it passes to the channel is the empty string, not the document
    id. *)
Lemma room_without_token_not_doc_id :
  doc_id empty_doc = "d1" ∧ roomId empty_doc "" ≠ doc_id empty_doc.
Proof. split; [reflexivity|]. vm_compute. discriminate. Qed.

(** C7, amended. With a session token established the room is
    [documentId:sessionToken]; with none the session-aware hook passes the
    empty string, and the hook without session support passes the document
    id alone. *)
Theorem room_identity (d : Doc) (token : string) :
  (token ≠ "" → roomId d token = doc_id d +:+ ":" +:+ token) ∧
  (token = "" → roomId d token = "") ∧
  Plain.room d = doc_id d.
Proof.
  unfold roomId, truthy. split_and!.
  - intros Hne. by rewrite bool_decide_eq_true_2.
  - intros ->. done.
  - done.
Qed.

Example room_identity_example :
  roomId empty_doc "tok" = "d1:tok" ∧ roomId empty_doc "" = "" ∧
  Plain.room empty_doc = "d1".
Proof. by vm_compute. Qed.

(** ** Creating what is already there *)

(** C6, as stated, fails: a second [node:create] for ["n1"] and a second
    [edge:create] for ["e1"] each change the document; the entity is then
    listed twice. *)
Lemma duplicate_create_not_noop :
  node_n1 ∈ nodes (doc state_n1_e1) ∧
  edge_e1 ∈ edges (doc state_n1_e1) ∧
  doc (apply (NodeCreate node_n1) "bob" state_n1_e1) ≠ doc state_n1_e1 ∧
  nodes (doc (apply (NodeCreate node_n1) "bob" state_n1_e1)) = [node_n1; node_n2; node_n1] ∧
  doc (apply (EdgeCreate edge_e1) "bob" state_n1_e1) ≠ doc state_n1_e1 ∧
  edges (doc (apply (EdgeCreate edge_e1) "bob" state_n1_e1)) = [edge_e1; edge_e1].
Proof.
  split_and!.
  - apply list_elem_of_here.
  - apply list_elem_of_here.
  - vm_compute. discriminate.
  - reflexivity.
  - vm_compute. discriminate.
  - reflexivity.
Qed.

(** C6, amended. Creates are not guarded by id. [node:create] always makes
    the node list one longer, whether or not the id is present; with no
    fragment buffered for the id the result is the old document with the node
    appended after the old nodes, so the number of nodes with that id goes up
    by one. [edge:create] appends the edge to the old edges. *)
Theorem create_appends (s : State) (sender : string) :
  (∀ node,
     length (nodes (doc (apply (NodeCreate node) sender s))) = S (length (nodes (doc s))) ∧
     edges (doc (apply (NodeCreate node) sender s)) = edges (doc s) ∧
     (pendingUpdates s !! node_id node = None →
        apply (NodeCreate node) sender s = setDoc (with_nodes (nodes (doc s) ++ [node])) s ∧
        length (filter (has_id (node_id node)) (nodes (doc (apply (NodeCreate node) sender s))))
        = S (length (filter (has_id (node_id node)) (nodes (doc s)))))) ∧
  (∀ edge,
     apply (EdgeCreate edge) sender s = setDoc (with_edges (edges (doc s) ++ [edge])) s ∧
     length (edges (doc (apply (EdgeCreate edge) sender s))) = S (length (edges (doc s)))).
Proof.
  split.
  - intros node. split_and!.
    + simpl. destruct (pendingUpdates s !! node_id node); [|simpl];
        [destruct (list_find _ _) as [[i m]|]; simpl|];
        rewrite ?length_insert, length_app; simpl; lia.
    + simpl. destruct (pendingUpdates s !! node_id node); [|done].
      by destruct (list_find _ _) as [[i m]|].
    + intros Hp. rewrite (create_plain s sender node Hp). split; [done|].
      simpl. rewrite filter_app, length_app.
      rewrite (filter_cons_True (has_id (node_id node))) by done. simpl. lia.
  - intros edge. split; [done|]. simpl. rewrite length_app. simpl. lia.
Qed.

(** ** Applying an action twice *)

(** C8, as stated, fails: a [node:update] whose [props] carry another id
    renames the node the first time and, finding no node the second time,
    buffers a fragment. *)
Lemma update_twice_differs :
  is_create (NodeUpdate "n1" props_rename) = false ∧
  apply (NodeUpdate "n1" props_rename) "bob"
    (apply (NodeUpdate "n1" props_rename) "bob" state_n1)
  ≠ apply (NodeUpdate "n1" props_rename) "bob" state_n1.
Proof.
  split; [reflexivity|]. intros H.
  apply (f_equal (λ st, pendingUpdates st !! "n1")) in H.
  vm_compute in H. discriminate.
Qed.

Lemma update_found_twice (ns : list CanvasNode) (id : string) (props : PartialCanvasNode)
    (i : nat) (node : CanvasNode) :
  list_find (has_id id) ns = Some (i, node) →
  part_id props = None ∨ part_id props = Some id →
  list_find (has_id id) (<[i := assign_node node props]> ns)
  = Some (i, assign_node node props).
Proof.
  intros Hfind Hp.
  apply list_find_Some in Hfind as (Hi & Hid & Hleast).
  apply list_find_Some. split_and!.
  - apply list_lookup_insert_eq. by eapply lookup_lt_Some.
  - by apply assign_node_keeps_id.
  - intros j y Hj Hlt. rewrite list_lookup_insert_ne in Hj by lia. by eapply Hleast.
Qed.

(** C8, amended. An action that is neither [node:create] nor [edge:create],
    and that is not a [node:update] which finds its node and carries another
    id for it, gives the same state applied twice as applied once. *)
Theorem apply_idempotent (s : State) (a : RealtimeAction) (sender : string) :
  is_create a = false →
  update_keeps_id s a →
  apply a sender (apply a sender s) = apply a sender s.
Proof.
  intros Hc Hk. destruct a as [node|id props|id|edge|from to|color|t|x y color|ids color];
    try discriminate Hc.
  - simpl in Hk. simpl.
    destruct (list_find (has_id id) (nodes (doc s))) as [[i node]|] eqn:Hfind.
    + destruct Hk as [Habs | Hk].
      { apply find_none_iff in Habs. congruence. }
      simpl. rewrite (update_found_twice _ _ _ _ _ Hfind Hk).
      unfold setDoc, with_nodes; simpl.
      by rewrite list_insert_insert_eq, assign_node_idemp.
    + simpl. rewrite Hfind. unfold setPending; simpl.
      rewrite lookup_insert_eq; simpl.
      by rewrite insert_insert_eq, assign_partial_idemp.
  - rewrite !delete_state. unfold setPending, setDoc, with_edges, with_nodes; simpl.
    by rewrite !list_filter_filter_l, delete_delete_eq by done.
  - unfold apply, setDoc, with_edges; simpl.
    by rewrite !list_filter_filter_l by done.
  - done.
  - done.
  - unfold apply, setCursors; simpl. by rewrite insert_insert_eq.
  - unfold apply, setCursors, setSelections; simpl.
    rewrite !lookup_insert_eq; simpl. by rewrite !insert_insert_eq.
Qed.

Lemma apply_idempotent_witness :
  apply (NodeUpdate "n1" props_x5) "bob" (apply (NodeUpdate "n1" props_x5) "bob" state_n1)
  = apply (NodeUpdate "n1" props_x5) "bob" state_n1.
Proof.
  apply (apply_idempotent state_n1 (NodeUpdate "n1" props_x5) "bob").
  - reflexivity.
  - right; left; reflexivity.
Defined.

(** ** Deleting edges *)

(** C9. [edge:delete{from,to}] keeps, in their order, exactly the edges whose
    pair of ends is not [(from, to)]; every edge with that pair goes, however
    many there are, and nothing else in the document changes. *)
Theorem edge_delete_by_pair (s : State) (from to sender : string) :
  let s' := apply (EdgeDelete from to) sender s in
  edges (doc s') = filter (edge_not_pair from to) (edges (doc s)) ∧
  (∀ e, e ∈ edges (doc s') ↔
        e ∈ edges (doc s) ∧ (fromNode e, toNode e) ≠ (from, to)) ∧
  (∀ e1 e2, e1 ∈ edges (doc s) → e2 ∈ edges (doc s) → edge_id e1 ≠ edge_id e2 →
            (fromNode e1, toNode e1) = (from, to) →
            (fromNode e2, toNode e2) = (from, to) →
            (e1 ∉ edges (doc s')) ∧ (e2 ∉ edges (doc s'))) ∧
  with_edges (edges (doc s)) (doc s') = doc s ∧
  cursors s' = cursors s ∧ selections s' = selections s ∧
  pendingUpdates s' = pendingUpdates s.
Proof.
  intros s'. subst s'. simpl.
  assert (Hmem : ∀ e, e ∈ filter (edge_not_pair from to) (edges (doc s)) ↔
                      e ∈ edges (doc s) ∧ (fromNode e, toNode e) ≠ (from, to)).
  { intros e. rewrite list_elem_of_filter. unfold edge_not_pair.
    split.
    - intros [Hpair Hin]. split; [done|]. intros Heq. apply Hpair. by inversion Heq.
    - intros [Hin Hpair]. split; [|done]. intros [Hf Ht]. apply Hpair. by rewrite Hf, Ht. }
  split_and!.
  - done.
  - exact Hmem.
  - intros e1 e2 _ _ _ H1 H2. rewrite !Hmem. tauto.
  - by destruct (doc s).
  - done.
  - done.
  - done.
Qed.

Example edge_delete_example :
  let s := apply (EdgeCreate (mkEdge "e3" "n2" "n1")) "bob"
             (apply (EdgeCreate (mkEdge "e2" "n1" "n2")) "bob" state_n1_e1) in
  edges (doc s) = [edge_e1; mkEdge "e2" "n1" "n2"; mkEdge "e3" "n2" "n1"] ∧
  edges (doc (apply (EdgeDelete "n1" "n2") "alice" s)) = [mkEdge "e3" "n2" "n1"].
Proof. by vm_compute. Qed.

(** ** Selection *)

(** C10. [node:select{ids, color}] from a sender sets that sender's selection
    to [ids] and writes that sender's cursor: the colour is the action's, the
    position is the previous one when the sender had a cursor and (0, 0)
    otherwise. The document, the buffer and the entries of every other sender
    are unchanged. *)
Theorem select_updates_presence (s : State) (sender : string) (ids : list string)
    (color : string) :
  let s' := apply (NodeSelect ids color) sender s in
  selections s' !! sender = Some ids ∧
  (∀ c, cursors s !! sender = Some c →
        cursors s' !! sender = Some (mkCursor (cursor_x c) (cursor_y c) color)) ∧
  (cursors s !! sender = None →
        cursors s' !! sender = Some (mkCursor 0 0 color)) ∧
  (∀ other, other ≠ sender →
        selections s' !! other = selections s !! other ∧
        cursors s' !! other = cursors s !! other) ∧
  doc s' = doc s ∧
  pendingUpdates s' = pendingUpdates s.
Proof.
  intros s'. subst s'. simpl. split_and!.
  - apply lookup_insert_eq.
  - intros c Hc. by rewrite lookup_insert_eq, Hc.
  - intros Hc. by rewrite lookup_insert_eq, Hc.
  - intros other Hne. by rewrite !lookup_insert_ne.
  - done.
  - done.
Qed.

Example select_example :
  let s := apply (NodeSelect ["n1"] "green") "carol" state_with_cursor in
  let t := apply (NodeSelect ["n1"] "green") "dave" state_with_cursor in
  cursors s !! "carol" = Some (mkCursor 1 2 "green") ∧
  selections s !! "carol" = Some ["n1"] ∧
  cursors t !! "dave" = Some (mkCursor 0 0 "green") ∧
  cursors t !! "carol" = Some (mkCursor 1 2 "blue").
Proof. by vm_compute. Qed.

(** * Further properties of the reducer *)

Lemma apply_all_cons (a : RealtimeAction * string) (acts : list (RealtimeAction * string))
    (s : State) :
  apply_all (a :: acts) s = apply_all acts (apply a.1 a.2 s).
Proof. reflexivity. Qed.

Lemma not_in_node_ids (n : string) (ns : list CanvasNode) :
  n ∉ node_id <$> ns ↔ Forall (λ m, node_id m ≠ n) ns.
Proof.
  rewrite Forall_forall, list_elem_of_fmap. split.
  - intros Hn m Hm Heq. apply Hn. by exists m.
  - intros Hn (m & -> & Hm). by apply (Hn m).
Qed.

Lemma assign_node_id_free (node : CanvasNode) (p : PartialCanvasNode) :
  part_id p = None → node_id (assign_node node p) = node_id node.
Proof. intros Hp. unfold assign_node; simpl. by rewrite Hp. Qed.

Lemma node_ids_insert_assign (ns : list CanvasNode) (i : nat) (found : CanvasNode)
    (p : PartialCanvasNode) :
  ns !! i = Some found →
  part_id p = None →
  node_id <$> <[i := assign_node found p]> ns = node_id <$> ns.
Proof.
  intros Hi Hp. rewrite list_fmap_insert. apply list_insert_id.
  by rewrite list_lookup_fmap, Hi, assign_node_id_free.
Qed.

Lemma find_appended_id (ns : list CanvasNode) (node : CanvasNode) (id : string) :
  Forall (λ m, node_id m ≠ id) ns →
  node_id node = id →
  list_find (has_id id) (ns ++ [node]) = Some (length ns, node).
Proof. intros Hns <-. by apply find_appended. Qed.

Lemma assign_node_assoc (node : CanvasNode) (p1 p2 : PartialCanvasNode) :
  assign_node (assign_node node p1) p2 = assign_node node (assign_partial p1 p2).
Proof.
  unfold assign_node, assign_partial; simpl. f_equal.
  - by destruct (part_id p2), (part_id p1).
  - by rewrite (assoc_L (∪)).
Qed.

Lemma assign_partial_assoc (old p1 p2 : PartialCanvasNode) :
  assign_partial (assign_partial old p1) p2 = assign_partial old (assign_partial p1 p2).
Proof.
  unfold assign_partial; simpl. f_equal.
  - by destruct (part_id p2), (part_id p1), (part_id old).
  - by rewrite (assoc_L (∪)).
Qed.

Lemma assign_partial_empty (p : PartialCanvasNode) :
  assign_partial empty_partial p = p.
Proof.
  destruct p as [pid attrs]. unfold assign_partial; simpl. f_equal.
  - by destruct pid.
  - by rewrite (right_id_L ∅ (∪)).
Qed.

(** X1. No sequence of actions changes the id or the recorded owner of the
    document. *)
Theorem apply_all_keeps_identity (acts : list (RealtimeAction * string)) (s : State) :
  doc_id (doc (apply_all acts s)) = doc_id (doc s) ∧
  userId (doc (apply_all acts s)) = userId (doc s).
Proof.
  revert s. induction acts as [|[a x] acts IH]; intros s; [done|].
  rewrite apply_all_cons. simpl. destruct (IH (apply a x s)) as [-> ->].
  destruct a; simpl; try done.
  - destruct (pendingUpdates s !! node_id node); [|done].
    by destruct (list_find _ _) as [[i m]|].
  - by destruct (list_find _ _) as [[i m]|].
Qed.

(** X2. After a sequence of actions the title is the one of the last
    [space:title] in it, and the background the colour of the last
    [space:background]; without such an action the field is the initial
    one. *)
Theorem scalar_last_writer_wins (acts : list (RealtimeAction * string)) (s : State) :
  title (doc (apply_all acts s)) = default (title (doc s)) (last_title acts) ∧
  backgroundColor (doc (apply_all acts s))
  = match last_background acts with
    | Some c => Some c
    | None => backgroundColor (doc s)
    end.
Proof.
  revert s. induction acts as [|[a x] acts IH]; intros s; [done|].
  rewrite apply_all_cons. simpl. destruct (IH (apply a x s)) as [-> ->].
  destruct (last_title acts), (last_background acts); simpl;
    destruct a; simpl; try done;
    try (destruct (pendingUpdates s !! node_id node); [|done];
         by destruct (list_find _ _) as [[i m]|]);
    by destruct (list_find _ _) as [[i m]|].
Qed.

Lemma buffer_disjoint_step (s : State) (a : RealtimeAction) (x : string) :
  buffer_disjoint s → id_free a → buffer_disjoint (apply a x s).
Proof.
  intros Hinv Hfree.
  destruct a as [node|id props|id|edge|from to|color|t|cx cy color|ids color];
    try exact Hinv.
  - destruct (pendingUpdates s !! node_id node) as [p|] eqn:Hp.
    + destruct (Hinv _ _ Hp) as [Hpid Hnot].
      rewrite (create_flushes s x node p) by (by apply not_in_node_ids || done).
      rewrite assign_node_id_free by done.
      intros n q Hq. simpl in Hq.
      apply lookup_delete_Some in Hq as [Hne Hq].
      destruct (Hinv _ _ Hq) as [Hqid Hqnot]. split; [done|].
      unfold node_ids; simpl. rewrite fmap_app, elem_of_app. simpl.
      rewrite Hpid. simpl.
      intros [Hin | Hin%list_elem_of_singleton]; [by apply Hqnot | congruence].
    + rewrite (create_plain s x node Hp).
      intros n q Hq. simpl in Hq. destruct (Hinv _ _ Hq) as [Hqid Hqnot].
      split; [done|]. unfold node_ids; simpl. rewrite fmap_app, elem_of_app. simpl.
      intros [Hin | Hin%list_elem_of_singleton]; [by apply Hqnot | congruence].
  - simpl in Hfree. simpl.
    destruct (list_find (has_id id) (nodes (doc s))) as [[i node]|] eqn:Hfind.
    + apply list_find_Some in Hfind as (Hi & _ & _).
      intros n q Hq. simpl in Hq. destruct (Hinv _ _ Hq) as [Hqid Hqnot].
      split; [done|]. unfold node_ids; simpl.
      by rewrite node_ids_insert_assign.
    + apply find_none_iff in Hfind.
      intros n q Hq. simpl in Hq.
      destruct (decide (n = id)) as [-> | Hne].
      * rewrite lookup_insert_eq in Hq. injection Hq as <-. split.
        -- unfold assign_partial; simpl. rewrite Hfree.
           destruct (pendingUpdates s !! id) as [q|] eqn:Hq; simpl; [|done].
           by destruct (Hinv _ _ Hq) as [-> _].
        -- by apply not_in_node_ids.
      * rewrite lookup_insert_ne in Hq by done. by apply Hinv.
  - rewrite delete_state. intros n q Hq. simpl in Hq.
    apply lookup_delete_Some in Hq as [Hne Hq].
    destruct (Hinv _ _ Hq) as [Hqid Hqnot]. split; [done|].
    unfold node_ids; simpl. intros (m & -> & Hm)%list_elem_of_fmap.
    apply list_elem_of_filter in Hm as [_ Hm]. apply Hqnot.
    apply list_elem_of_fmap. by exists m.
Qed.

(** X3. When no [props] carry an [id] field, the buffer and the document
    stay disjoint through any sequence of actions: a fragment is only ever
    buffered for an id the document does not have. *)
Theorem buffer_disjoint_invariant (acts : list (RealtimeAction * string)) (s : State) :
  buffer_disjoint s →
  Forall (λ a, id_free a.1) acts →
  buffer_disjoint (apply_all acts s).
Proof.
  revert s. induction acts as [|[a x] acts IH]; intros s Hinv Hfree; [done|].
  apply Forall_cons in Hfree as [Ha Hrest].
  rewrite apply_all_cons. apply IH; [|done]. by apply buffer_disjoint_step.
Qed.

Lemma buffer_disjoint_invariant_witness :
  buffer_disjoint (apply_all convergence_actions empty_state).
Proof.
  apply (buffer_disjoint_invariant convergence_actions empty_state).
  - intros n p Hp. vm_compute in Hp. discriminate.
  - unfold convergence_actions. repeat constructor.
Defined.

Lemma update_found_last (t : State) (ns : list CanvasNode) (m : CanvasNode)
    (id y : string) (props : PartialCanvasNode) :
  nodes (doc t) = ns ++ [m] →
  Forall (λ k, node_id k ≠ id) ns →
  node_id m = id →
  apply (NodeUpdate id props) y t
  = setDoc (with_nodes (ns ++ [assign_node m props])) t.
Proof.
  intros Hns Hnot Hid. simpl. rewrite Hns.
  rewrite (find_appended_id _ _ id Hnot Hid). by rewrite insert_appended.
Qed.

(** X4. The race the buffer is for: when the document has no node with the
    id and neither the update nor a fragment already buffered carries an
    [id] field, [node:update] before [node:create] and [node:create] before
    [node:update] end in the same state. *)
Theorem create_update_commute (s : State) (node : CanvasNode) (props : PartialCanvasNode)
    (x y : string) :
  node_id node ∉ node_ids (doc s) →
  part_id props = None →
  (∀ p, pendingUpdates s !! node_id node = Some p → part_id p = None) →
  apply (NodeCreate node) x (apply (NodeUpdate (node_id node) props) y s)
  = apply (NodeUpdate (node_id node) props) y (apply (NodeCreate node) x s).
Proof.
  intros Hnot%not_in_node_ids Hprops Hold.
  set (old := default empty_partial (pendingUpdates s !! node_id node)).
  assert (Hbuf : part_id (assign_partial old props) = None).
  { unfold assign_partial, old; simpl. rewrite Hprops.
    destruct (pendingUpdates s !! node_id node) as [q|] eqn:Hq; simpl; [|done].
    by rewrite (Hold q). }
  rewrite (update_absent s (node_id node) y props Hnot). fold old.
  rewrite (create_flushes _ x node (assign_partial old props));
    [|exact Hnot|apply lookup_insert_eq].
  rewrite (assign_node_id_free _ _ Hbuf).
  destruct (pendingUpdates s !! node_id node) as [p0|] eqn:Hp0.
  - rewrite (create_flushes s x node p0 Hnot Hp0).
    rewrite (assign_node_id_free _ _ (Hold p0 eq_refl)).
    rewrite (update_found_last _ (nodes (doc s)) (assign_node node p0));
      [|done|done|by apply assign_node_id_free, Hold].
    rewrite assign_node_assoc.
    unfold setPending, setDoc; simpl. f_equal. apply delete_insert_eq.
  - rewrite (create_plain s x node Hp0).
    rewrite (update_found_last _ (nodes (doc s)) node); [|done..].
    unfold old; simpl. rewrite assign_partial_empty.
    unfold setPending, setDoc; simpl. f_equal.
    rewrite delete_insert_eq. by apply delete_id.
Qed.

Lemma create_update_commute_witness :
  apply (NodeCreate node_n1) "bob" (apply (NodeUpdate "n1" props_x5) "alice" empty_state)
  = apply (NodeUpdate "n1" props_x5) "alice" (apply (NodeCreate node_n1) "bob" empty_state).
Proof.
  apply (create_update_commute empty_state node_n1 props_x5 "bob" "alice").
  - apply not_elem_of_nil.
  - reflexivity.
  - intros p Hp. vm_compute in Hp. discriminate.
Defined.

(** X5. Two updates of the same id in a row are one update with the merged
    props, the later one winning field by field; this holds for a node that
    exists as for a fragment that is buffered, as long as the first update
    does not rename the node it finds. *)
Theorem update_update_merge (s : State) (id : string) (p1 p2 : PartialCanvasNode)
    (x y : string) :
  update_keeps_id s (NodeUpdate id p1) →
  apply (NodeUpdate id p2) y (apply (NodeUpdate id p1) x s)
  = apply (NodeUpdate id (assign_partial p1 p2)) x s.
Proof.
  intros Hk. simpl in Hk. simpl.
  destruct (list_find (has_id id) (nodes (doc s))) as [[i node]|] eqn:Hfind.
  - destruct Hk as [Habs | Hk].
    { apply find_none_iff in Habs. congruence. }
    simpl. rewrite (update_found_twice _ _ _ _ _ Hfind Hk).
    unfold setDoc, with_nodes; simpl.
    by rewrite list_insert_insert_eq, assign_node_assoc.
  - simpl. rewrite Hfind. unfold setPending; simpl.
    rewrite lookup_insert_eq; simpl.
    by rewrite insert_insert_eq, assign_partial_assoc.
Qed.

Lemma update_update_merge_witness :
  apply (NodeUpdate "n1" props_x5) "bob" (apply (NodeUpdate "n1" props_x5) "alice" state_n1)
  = apply (NodeUpdate "n1" (assign_partial props_x5 props_x5)) "alice" state_n1.
Proof.
  apply (update_update_merge state_n1 "n1" props_x5 props_x5 "alice" "bob").
  right; left; reflexivity.
Defined.

Lemma node_ids_filter_subseteq (id : string) (ns : list CanvasNode) (n : string) :
  n ∈ node_id <$> ns → n ≠ id →
  n ∈ node_id <$> filter (λ m, node_id m ≠ id) ns.
Proof.
  intros (m & -> & Hm)%list_elem_of_fmap Hne.
  apply list_elem_of_fmap. exists m. split; [done|]. by apply list_elem_of_filter.
Qed.

(** X6. Referential integrity of edges: if both ends of every edge are
    nodes of the document, this is still so after any action, provided an
    [edge:create] names existing nodes and no [props], given or buffered for
    a created node, carry an [id] field. In particular [node:delete] never
    leaves an edge without its node. *)
Theorem edges_closed_step (s : State) (a : RealtimeAction) (x : string) :
  edges_closed (doc s) →
  keeps_edges_closed s a →
  edges_closed (doc (apply a x s)).
Proof.
  unfold edges_closed, node_ids. intros Hc Hk.
  destruct a as [node|id props|id|edge|from to|color|t|cx cy color|ids color];
    try exact Hc.
  - simpl in Hk.
    assert (Hids : ∃ extra, node_id <$> nodes (doc (apply (NodeCreate node) x s))
                            = (node_id <$> nodes (doc s)) ++ extra).
    { simpl. destruct (pendingUpdates s !! node_id node) as [p|] eqn:Hp.
      - destruct (list_find _ _) as [[i found]|] eqn:Hfind; simpl.
        + apply list_find_Some in Hfind as (Hi & _ & _).
          rewrite (node_ids_insert_assign _ _ _ _ Hi (Hk p eq_refl)).
          rewrite fmap_app. by eexists.
        + rewrite fmap_app. by eexists.
      - simpl. rewrite fmap_app. by eexists. }
    destruct Hids as [extra Hids]. rewrite Hids.
    assert (Hedges : edges (doc (apply (NodeCreate node) x s)) = edges (doc s)).
    { simpl. destruct (pendingUpdates s !! node_id node); [|done].
      by destruct (list_find _ _) as [[i found]|]. }
    rewrite Hedges. eapply Forall_impl; [exact Hc|].
    intros e [Hf Ht]. rewrite !elem_of_app. auto.
  - simpl in Hk. simpl.
    destruct (list_find (has_id id) (nodes (doc s))) as [[i node]|] eqn:Hfind;
      [|exact Hc].
    apply list_find_Some in Hfind as (Hi & _ & _). simpl.
    by rewrite (node_ids_insert_assign _ _ _ _ Hi Hk).
  - rewrite delete_state. simpl. apply Forall_forall.
    intros e [[Hf Ht] He]%list_elem_of_filter.
    rewrite Forall_forall in Hc. destruct (Hc e He) as [Hfi Hti].
    split; by apply node_ids_filter_subseteq.
  - simpl in Hk. simpl. apply Forall_app. split; [exact Hc|].
    by apply Forall_singleton.
  - simpl. apply Forall_forall. intros e [_ He]%list_elem_of_filter.
    rewrite Forall_forall in Hc. by apply Hc.
Qed.

Lemma edges_closed_step_witness :
  edges_closed (doc (apply (NodeDelete "n1") "bob" state_n1_e1)).
Proof.
  apply (edges_closed_step state_n1_e1 (NodeDelete "n1") "bob").
  - unfold edges_closed. vm_compute. repeat constructor.
  - exact I.
Defined.

(** X7. Distinct node ids stay distinct through any action, provided a
    [node:create] brings an id the document does not have and no [props],
    given or buffered for the created node, carry an [id] field. *)
Theorem unique_ids_step (s : State) (a : RealtimeAction) (x : string) :
  NoDup (node_ids (doc s)) →
  keeps_ids_unique s a →
  NoDup (node_ids (doc (apply a x s))).
Proof.
  unfold node_ids. intros Hnd Hk.
  destruct a as [node|id props|id|edge|from to|color|t|cx cy color|ids color];
    try exact Hnd.
  - destruct Hk as [Hnot Hp].
    assert (Happ : NoDup (node_id <$> nodes (doc s) ++ [node])).
    { rewrite fmap_app. apply NoDup_app. split_and!; [done| |apply NoDup_singleton].
      intros n Hn ->%list_elem_of_singleton. by apply Hnot. }
    simpl. destruct (pendingUpdates s !! node_id node) as [p|] eqn:Hq; [|exact Happ].
    destruct (list_find _ _) as [[i found]|] eqn:Hfind; simpl; [|exact Happ].
    apply list_find_Some in Hfind as (Hi & _ & _).
    by rewrite (node_ids_insert_assign _ _ _ _ Hi (Hp p eq_refl)).
  - simpl in Hk. simpl.
    destruct (list_find (has_id id) (nodes (doc s))) as [[i node]|] eqn:Hfind;
      [|exact Hnd].
    apply list_find_Some in Hfind as (Hi & _ & _). simpl.
    by rewrite (node_ids_insert_assign _ _ _ _ Hi Hk).
  - rewrite delete_state. simpl.
    eapply sublist_NoDup; [exact Hnd|].
    apply fmap_sublist, sublist_filter.
Qed.

Lemma unique_ids_step_witness :
  NoDup (node_ids (doc (apply (NodeCreate node_n2) "bob" state_n1))).
Proof.
  apply (unique_ids_step state_n1 (NodeCreate node_n2) "bob").
  - vm_compute. repeat constructor. apply not_elem_of_nil.
  - split.
    + vm_compute. intros H. apply list_elem_of_singleton in H. discriminate.
    + intros p Hp. vm_compute in Hp. discriminate.
Defined.

(** X8. Presence and document are independent: a presence action commutes
    with any document action, and with a presence action of another
    sender. *)
Theorem presence_commutes (s : State) (a b : RealtimeAction) (x y : string) :
  is_presence a = true →
  is_presence b = false ∨ x ≠ y →
  apply a x (apply b y s) = apply b y (apply a x s).
Proof.
  intros Ha Hb.
  destruct a as [| | | | | | |ax ay acolor|aids acolor]; try discriminate Ha.
  - destruct b as [node|id props|id|edge|from to|color|t|bx by' bcolor|bids bcolor];
      simpl.
    + destruct (pendingUpdates s !! node_id node); [|done].
      by destruct (list_find _ _) as [[i m]|].
    + by destruct (list_find _ _) as [[i m]|].
    + done.
    + done.
    + done.
    + done.
    + done.
    + destruct Hb as [Hb | Hne]; [discriminate Hb|].
      unfold setCursors; simpl. f_equal. by apply insert_insert_ne.
    + destruct Hb as [Hb | Hne]; [discriminate Hb|].
      unfold setCursors, setSelections; simpl. f_equal.
      rewrite !lookup_insert_ne by done. by apply insert_insert_ne.
  - destruct b as [node|id props|id|edge|from to|color|t|bx by' bcolor|bids bcolor];
      simpl.
    + destruct (pendingUpdates s !! node_id node); [|done].
      by destruct (list_find _ _) as [[i m]|].
    + by destruct (list_find _ _) as [[i m]|].
    + done.
    + done.
    + done.
    + done.
    + done.
    + destruct Hb as [Hb | Hne]; [discriminate Hb|].
      unfold setCursors, setSelections; simpl. f_equal.
      rewrite !lookup_insert_ne by done. by apply insert_insert_ne.
    + destruct Hb as [Hb | Hne]; [discriminate Hb|].
      unfold setCursors, setSelections; simpl. f_equal.
      * rewrite !lookup_insert_ne by done. by apply insert_insert_ne.
      * by apply insert_insert_ne.
Qed.

Lemma presence_commutes_witness :
  apply (NodeSelect ["n1"] "green") "carol" (apply (NodeDelete "n1") "bob" state_n1)
  = apply (NodeDelete "n1") "bob" (apply (NodeSelect ["n1"] "green") "carol" state_n1).
Proof.
  apply (presence_commutes state_n1 (NodeSelect ["n1"] "green") (NodeDelete "n1")
           "carol" "bob").
  - reflexivity.
  - left; reflexivity.
Defined.

(** * Sender and receiver *)

Lemma sendIfAllowed_open (h : Hook) (a : RealtimeAction) :
  send_permitted h → sendIfAllowed a h = send a h.
Proof.
  intros Hp%canSendRef_permitted. unfold sendIfAllowed. by rewrite Hp.
Qed.

(** X10. What the sender keeps is what the receiver gets: after [onConnect]
    or [onTitleChange] by a client the gate lets through, exactly one action
    has been handed to [send], and a peer holding the same document that
    applies this action ends with the document the sender now holds. *)
Theorem local_edit_matches_broadcast (h : Hook) (s : State) (sender : string) :
  send_permitted h →
  doc s = hook_doc h →
  (∀ rid from to,
     ∃ a, outbox (onConnect rid from to h) = outbox h ++ [a] ∧
          doc (apply a sender s) = hook_doc (onConnect rid from to h)) ∧
  (∀ t,
     ∃ a, outbox (onTitleChange t h) = outbox h ++ [a] ∧
          doc (apply a sender s) = hook_doc (onTitleChange t h)).
Proof.
  intros Hp Hdoc. split.
  - intros rid from to. exists (EdgeCreate (mkEdge rid from to)).
    unfold onConnect. rewrite sendIfAllowed_open by done. simpl.
    by rewrite Hdoc.
  - intros t. exists (SpaceTitle t).
    unfold onTitleChange. rewrite sendIfAllowed_open by done. simpl.
    by rewrite Hdoc.
Qed.

Lemma local_edit_matches_broadcast_witness :
  ∃ a, outbox (onTitleChange "plan" owner_hook) = outbox owner_hook ++ [a] ∧
       doc (apply a "U1" (hook_state owner_hook))
       = hook_doc (onTitleChange "plan" owner_hook).
Proof.
  apply (local_edit_matches_broadcast owner_hook (hook_state owner_hook) "U1").
  - right; right; left. reflexivity.
  - reflexivity.
Defined.

(** * The session token *)

Lemma session_key_inj (a b : string) : session_key a = session_key b → a = b.
Proof. unfold session_key. simpl. intros H. by simplify_eq. Qed.

(** X11. A token in the URL wins over a stored one and is remembered: after
    the effect has run for a document with a non-empty id and a non-empty
    [session] parameter, the token is that parameter, it is stored under the
    document's key, and running the effect again without the parameter
    gives the same token and storage, whatever the token state was. *)
Theorem session_effect_url_persists (d : Doc) (t : string)
    (storage : gmap string string) (tok : string) :
  doc_id d ≠ "" →
  t ≠ "" →
  let r := session_effect d (Some t) storage tok in
  r.2 = t ∧
  r.1 !! session_key (doc_id d) = Some t ∧
  (∀ tok', session_effect d None r.1 tok' = (r.1, t)).
Proof.
  intros Hd%truthy_true Ht%truthy_true r. subst r.
  unfold session_effect. rewrite Hd. simpl. rewrite !Ht. simpl. split_and!.
  - done.
  - apply lookup_insert_eq.
  - intros tok'. rewrite lookup_insert_eq. simpl. rewrite Ht.
    by rewrite insert_insert_eq.
Qed.

Lemma session_effect_url_persists_witness :
  (session_effect empty_doc (Some "tok") ∅ "").2 = "tok" ∧
  session_effect empty_doc None (session_effect empty_doc (Some "tok") ∅ "").1 "old"
  = ((session_effect empty_doc (Some "tok") ∅ "").1, "tok").
Proof.
  destruct (session_effect_url_persists empty_doc "tok" ∅ "") as (H1 & _ & H3);
    [done..|].
  split; [exact H1 | apply H3].
Defined.

(** X12. Edge cases of the session token. With an empty document id
    neither the effect nor [onShareSession] does anything. With no [session]
    parameter, or an empty one, and nothing or an empty value stored under
    the document's key, the effect leaves storage and token as they are, so a
    document without a token of its own inherits the one in force. The
    effect never replaces a non-empty token by the empty one. *)
Theorem session_effect_keeps_token (d : Doc) (url_session : option string)
    (rid : string) (storage : gmap string string) (tok : string) :
  (doc_id d = "" →
     session_effect d url_session storage tok = (storage, tok) ∧
     onShareSession d rid storage tok = (storage, tok, None)) ∧
  (url_session = None ∨ url_session = Some "" →
   storage !! session_key (doc_id d) = None ∨
     storage !! session_key (doc_id d) = Some "" →
   session_effect d url_session storage tok = (storage, tok)) ∧
  (tok ≠ "" → (session_effect d url_session storage tok).2 ≠ "").
Proof.
  unfold session_effect, onShareSession. split_and!.
  - intros ->. done.
  - intros [-> | ->] [Hs | Hs]; rewrite Hs; simpl; by destruct (truthy (doc_id d)).
  - intros Htok. destruct (truthy (doc_id d)); [|done]. simpl.
    destruct (truthy (if truthy (default "" url_session) then _ else _)) eqn:Ht;
      simpl; [|done].
    by apply truthy_true.
Qed.

(** X13. Tokens are kept per document: neither the effect nor
    [onShareSession] for one document changes what is stored under the key
    of a document with another id. *)
Theorem session_storage_isolated (d d' : Doc) (url_session : option string)
    (rid : string) (storage : gmap string string) (tok : string) :
  doc_id d ≠ doc_id d' →
  (session_effect d url_session storage tok).1 !! session_key (doc_id d')
  = storage !! session_key (doc_id d') ∧
  (onShareSession d rid storage tok).1.1 !! session_key (doc_id d')
  = storage !! session_key (doc_id d').
Proof.
  intros Hne.
  assert (Hk : session_key (doc_id d) ≠ session_key (doc_id d'))
    by (intros H%session_key_inj; done).
  unfold session_effect, onShareSession. split.
  - destruct (truthy (doc_id d)); [|done]. simpl.
    destruct (truthy _); simpl; [|done]. by rewrite lookup_insert_ne.
  - destruct (truthy (doc_id d)); simpl; [|done]. by rewrite lookup_insert_ne.
Qed.

Lemma session_storage_isolated_witness :
  (session_effect empty_doc (Some "tok") ∅ "").1 !! session_key (doc_id other_doc)
  = (∅ : gmap string string) !! session_key (doc_id other_doc).
Proof.
  apply (session_storage_isolated empty_doc other_doc (Some "tok") "r1" ∅ "").
  discriminate.
Defined.

(** X14. Sharing opens the document to the invited: after [onShareSession]
    on a document with a non-empty id, with a non-empty random token, the
    sharer's token is the new one, the room is [documentId:token] and the
    gate is open whoever owns the document; a peer whose URL carries the
    copied [session] parameter gets the same token from the effect, hence
    the same room and an open gate, whatever it had stored before. *)
Theorem share_link_joins_same_room (d : Doc) (rid : string)
    (storage peer_storage : gmap string string) (tok peer_tok uid peer_uid : string) :
  doc_id d ≠ "" →
  rid ≠ "" →
  let shared := onShareSession d rid storage tok in
  let joined := session_effect d shared.2 peer_storage peer_tok in
  shared.1.2 = rid ∧
  shared.1.1 !! session_key (doc_id d) = Some rid ∧
  roomId d shared.1.2 = doc_id d +:+ ":" +:+ rid ∧
  canSend d uid shared.1.2 = true ∧
  joined.2 = rid ∧
  roomId d joined.2 = roomId d shared.1.2 ∧
  canSend d peer_uid joined.2 = true.
Proof.
  intros Hd%truthy_true Hr%truthy_true shared joined. subst joined shared.
  unfold onShareSession, session_effect, roomId, canSend.
  rewrite Hd. simpl. rewrite !Hr. simpl. rewrite !Hr.
  split_and!; try done.
  - apply lookup_insert_eq.
  - by rewrite !orb_true_r.
  - by rewrite !orb_true_r.
Qed.

Lemma share_link_joins_same_room_witness :
  roomId other_doc (session_effect other_doc
                      (onShareSession other_doc "r1" ∅ "").2 ∅ "").2
  = roomId other_doc (onShareSession other_doc "r1" ∅ "").1.2.
Proof.
  destruct (share_link_joins_same_room other_doc "r1" ∅ ∅ "" "" "U1" "U2")
    as (_ & _ & _ & _ & _ & H & _); [done..|].
  exact H.
Defined.

(** * Presence from sender to peer *)

(** X15. A pointer move and then a selection by a client the gate lets
    through hand exactly [cursor:move] and [node:select], both with the
    client's cursor colour, to [send], and leave the client's own state and
    presence maps as they were; a peer that applies the two under the
    sender's id then shows the sender's cursor at that position with that
    colour and the selection, and its document is unchanged. *)
Theorem presence_reaches_peer (h : Hook) (ps : PresenceSenders) (x y : Z)
    (ids : list string) (s : State) (c : string) :
  send_permitted h →
  let r := move_then_select x y ids h ps in
  let sent := [CursorMove x y (cursorColor ps); NodeSelect ids (cursorColor ps)] in
  let s' := apply_all ((λ a, (a, c)) <$> sent) s in
  hook_state r.1 = hook_state h ∧
  outbox r.1 = outbox h ++ sent ∧
  sendCursor r.2 = None ∧ sendSelection r.2 = None ∧
  cursors s' !! c = Some (mkCursor x y (cursorColor ps)) ∧
  selections s' !! c = Some ids ∧
  doc s' = doc s.
Proof.
  intros Hp r sent s'. subst r sent s'.
  unfold move_then_select, sendCursor_elapse, sendSelection_elapse; simpl.
  rewrite (sendIfAllowed_open h) by done.
  rewrite sendIfAllowed_open by done. simpl.
  split_and!; try done.
  - by rewrite <- (assoc_L (++)).
  - rewrite lookup_insert_eq, lookup_insert_eq. done.
  - apply lookup_insert_eq.
Qed.

Lemma presence_reaches_peer_witness :
  outbox (move_then_select 3 4 ["n1"] owner_hook (mkPresenceSenders "red" None None)).1
  = [CursorMove 3 4 "red"; NodeSelect ["n1"] "red"].
Proof.
  destruct (presence_reaches_peer owner_hook (mkPresenceSenders "red" None None) 3 4
              ["n1"] empty_state "U1") as (_ & H & _).
  - right; right; left. reflexivity.
  - exact H.
Defined.

(** * [useInitApp] *)

(** X16. Lock and gate: a document that is not locked for the user can
    always be broadcast; the gate is shut only for a locked document that
    has a recorded owner and no session token. *)
Theorem lock_and_gate (d : Doc) (uid tok : string) :
  (InitApp.isLocked d uid = false → canSend d uid tok = true) ∧
  (canSend d uid tok = false →
     InitApp.isLocked d uid = true ∧ tok = "" ∧ ∃ o, userId d = Some o ∧ o ≠ "").
Proof.
  unfold InitApp.isLocked, canSend. split.
  - intros Hl%bool_decide_eq_false. apply dec_stable in Hl.
    rewrite (bool_decide_eq_true_2 _ Hl). by rewrite orb_true_r.
  - rewrite !orb_false_iff, negb_false_iff, bool_decide_eq_false.
    intros [[Ho Hu] Ht]. split_and!.
    + by apply bool_decide_eq_true.
    + unfold truthy in Ht. apply bool_decide_eq_false in Ht. by apply dec_stable in Ht.
    + destruct (userId d) as [o|]; [|done]. exists o. split; [done|].
      by apply truthy_true.
Qed.

Section InitAppProperties.
Variable stringify : Doc → string.
Variable parse : string → option Doc.

(** X17. What unload saves: nothing when the document is unchanged; a
    titleless document of its owner is not saved; at most one document is
    saved, it records the user as owner, and it is the document itself when
    the user owns it and otherwise a copy under the fresh id made for a
    signed-in user; the page is held back exactly when a viewer who does not
    own a changed document confirms the fork. *)
Theorem unload_saves (uid : string) (access_token : option string)
    (confirmFork : bool) (rid : string) (st : InitApp.InitState) :
  let d := InitApp.init_doc st in
  let out := InitApp.onBeforeUnload stringify uid access_token confirmFork rid st in
  (InitApp.changed stringify st = false → out = []) ∧
  (userId d = Some uid → title d = "" → out = []) ∧
  (length (omap InitApp.saved_doc out) ≤ 1)%nat ∧
  (∀ e d', e ∈ out → InitApp.saved_doc e = Some d' →
     userId d' = Some uid ∧
     (userId d = Some uid ∧ d' = d ∨
      userId d ≠ Some uid ∧ uid ≠ "" ∧ d' = InitApp.with_id_owner rid uid d)) ∧
  (InitApp.PreventDefault ∈ out ↔
     userId d ≠ Some uid ∧ InitApp.changed stringify st = true ∧ confirmFork = true).
Proof.
  intros d out. subst d out. unfold InitApp.onBeforeUnload.
  destruct (InitApp.changed stringify st) eqn:Hch;
    case_bool_decide as Hown;
    destruct (truthy (doc_id (InitApp.init_doc st)));
    destruct (truthy (title (InitApp.init_doc st))) eqn:Htitle;
    destruct confirmFork;
    destruct access_token as [tok|]; try destruct (truthy tok);
    destruct (truthy uid) eqn:Huid; simpl;
    (split_and!;
     [ done
     | try done; intros _ Ht; exfalso; apply truthy_true in Htitle; done
     | lia
     | intros e d' He Hs;
       repeat (apply elem_of_cons in He as [-> | He]); try (by inversion He);
       simpl in Hs; simplify_eq; (split; [done|]);
       first [ left; done
             | right; split_and!; [done | by apply truthy_true | done] ]
     | split;
       [ intros He; repeat (apply elem_of_cons in He as [He | He]);
         try discriminate He; try (by inversion He); done
       | intros (H1 & H2 & H3); try done; try discriminate;
         repeat first [ apply list_elem_of_here | apply list_elem_of_further ] ] ]).
Qed.

(** X18. A fork survives sign-in: when an anonymous viewer of a changed
    document confirms the fork at unload, the document is put aside; the
    effect that runs once the viewer is signed in, if the save succeeds,
    makes it the current document with the same content under the fresh id,
    owned and unlocked for the user, counts it as unchanged and removes what
    was put aside; if the save fails, the state and what was put aside are
    kept. *)
Theorem pending_fork_round_trip (st later : InitApp.InitState) (uid rid rid' : string)
    (access_token : option string) :
  userId (InitApp.init_doc st) ≠ Some "" →
  InitApp.changed stringify st = true →
  stringify (InitApp.init_doc st) ≠ "" →
  parse (stringify (InitApp.init_doc st)) = Some (InitApp.init_doc st) →
  uid ≠ "" →
  let d := InitApp.init_doc st in
  let payload := stringify d in
  InitApp.onBeforeUnload stringify "" access_token true rid' st
  = [InitApp.SetPendingFork payload; InitApp.Navigate "/"; InitApp.PreventDefault] ∧
  (let r := InitApp.pendingForkEffect stringify parse uid (Some payload) rid true later in
   InitApp.init_doc r.1.1 = InitApp.with_id_owner rid uid d ∧
   nodes (InitApp.init_doc r.1.1) = nodes d ∧
   edges (InitApp.init_doc r.1.1) = edges d ∧
   InitApp.isLocked (InitApp.init_doc r.1.1) uid = false ∧
   InitApp.changed stringify r.1.1 = false ∧
   r.1.2 = None ∧
   InitApp.RemovePendingFork ∈ r.2) ∧
  InitApp.pendingForkEffect stringify parse uid (Some payload) rid false later
  = (later, Some payload, [InitApp.SaveDoc (InitApp.with_id_owner rid uid d) uid]).
Proof.
  intros Hanon Hch Hne%truthy_true Hparse Huid%truthy_true d payload.
  subst d payload. split_and!.
  - unfold InitApp.onBeforeUnload. rewrite Hch.
    rewrite bool_decide_eq_false_2 by done. done.
  - unfold InitApp.pendingForkEffect. rewrite Huid, Hne, Hparse. simpl.
    split_and!; try done.
    + apply bool_decide_eq_false. intros H. by apply H.
    + unfold InitApp.changed; simpl. apply bool_decide_eq_false. intros H. by apply H.
    + repeat first [ apply list_elem_of_here | apply list_elem_of_further ].
  - unfold InitApp.pendingForkEffect. by rewrite Huid, Hne, Hparse.
Qed.

(** X19. The pending-fork effect needs a signed-in user and a payload that
    parses: for an anonymous user, with nothing stored, with an empty item or
    with an item [JSON.parse] rejects, it changes nothing, asks for nothing
    and leaves the stored item where it is. *)
Theorem pending_fork_ignored (uid rid : string) (stored : option string)
    (save_ok : bool) (st : InitApp.InitState) :
  uid = "" ∨ stored = None ∨ stored = Some "" ∨
    (∃ payload, stored = Some payload ∧ parse payload = None) →
  InitApp.pendingForkEffect stringify parse uid stored rid save_ok st = (st, stored, []).
Proof.
  unfold InitApp.pendingForkEffect.
  intros [-> | [-> | [-> | (payload & -> & Hp)]]].
  - done.
  - by destruct (truthy uid).
  - by destruct (truthy uid).
  - rewrite Hp. by destruct (truthy uid), (truthy payload).
Qed.

(** X20. A document that has just been loaded, forked with a successful
    save, or restored from a pending fork counts as unchanged: unload then
    saves nothing and asks nothing, whoever the user is. *)
Theorem fresh_document_not_saved (st : InitApp.InitState) (uid uid' rid rid' : string)
    (access_token : option string) (confirmFork : bool) :
  (∀ id newDoc,
     id ≠ "" → doc_id (InitApp.init_doc st) ≠ id →
     let st' := (InitApp.loadEffect stringify (Some id) rid (Some newDoc) st).1 in
     InitApp.init_doc st' = newDoc ∧
     InitApp.onBeforeUnload stringify uid' access_token confirmFork rid' st' = []) ∧
  (uid ≠ "" →
     let st' := (InitApp.onFork stringify uid true st).1 in
     InitApp.isLocked (InitApp.init_doc st') uid = false ∧
     doc_id (InitApp.init_doc st') = doc_id (InitApp.init_doc st) ∧
     InitApp.onBeforeUnload stringify uid' access_token confirmFork rid' st' = []) ∧
  (∀ payload saved,
     uid ≠ "" → payload ≠ "" → parse payload = Some saved →
     let st' := (InitApp.pendingForkEffect stringify parse uid (Some payload) rid true st).1.1 in
     InitApp.onBeforeUnload stringify uid' access_token confirmFork rid' st' = []).
Proof.
  assert (Hfresh : ∀ d,
    InitApp.onBeforeUnload stringify uid' access_token confirmFork rid'
      (InitApp.mkInitState d (stringify d)) = []).
  { intros d. unfold InitApp.onBeforeUnload, InitApp.changed; simpl.
    rewrite (bool_decide_eq_false_2 (stringify d ≠ stringify d)) by (intros H; by apply H).
    rewrite andb_false_r. by case_bool_decide. }
  split_and!.
  - intros id newDoc Hid%truthy_true Hne st'. subst st'.
    unfold InitApp.loadEffect. rewrite Hid.
    rewrite bool_decide_eq_true_2 by done. simpl. split; [done|]. apply Hfresh.
  - intros Huid%truthy_true st'. subst st'. unfold InitApp.onFork. rewrite Huid. simpl.
    split_and!; [|done|apply Hfresh].
    apply bool_decide_eq_false. intros H. by apply H.
  - intros payload saved Huid%truthy_true Hp%truthy_true Hparse st'. subst st'.
    unfold InitApp.pendingForkEffect. rewrite Huid, Hp, Hparse. simpl. apply Hfresh.
Qed.

End InitAppProperties.

Example unload_example :
  InitApp.onBeforeUnload InitApp.sample_stringify "U1" (Some "jwt") false "r9"
    InitApp.edited_state
  = [InitApp.SaveDocBeacon other_doc "jwt" "U1"] ∧
  InitApp.onBeforeUnload InitApp.sample_stringify "U2" None true "r9" InitApp.edited_state
  = [InitApp.SaveDoc (InitApp.with_id_owner "r9" "U2" other_doc) "U2";
     InitApp.PreventDefault] ∧
  InitApp.onBeforeUnload InitApp.sample_stringify "" None true "r9" InitApp.edited_state
  = [InitApp.SetPendingFork "d2"; InitApp.Navigate "/"; InitApp.PreventDefault].
Proof. by vm_compute. Qed.

Lemma pending_fork_round_trip_witness :
  InitApp.onBeforeUnload InitApp.sample_stringify "" None true "r1" InitApp.edited_state
  = [InitApp.SetPendingFork "d2"; InitApp.Navigate "/"; InitApp.PreventDefault].
Proof.
  destruct (pending_fork_round_trip InitApp.sample_stringify InitApp.sample_parse
              InitApp.edited_state InitApp.edited_state "U2" "r9" "r1" None)
    as (H & _); [done..|].
  exact H.
Defined.

Lemma pending_fork_ignored_witness :
  InitApp.pendingForkEffect InitApp.sample_stringify InitApp.sample_parse
    "U2" (Some "garbage") "r9" true InitApp.edited_state
  = (InitApp.edited_state, Some "garbage", []).
Proof.
  apply (pending_fork_ignored InitApp.sample_stringify InitApp.sample_parse
           "U2" "r9" (Some "garbage") true InitApp.edited_state).
  right; right; right. exists "garbage". split; reflexivity.
Defined.

(** * [Editable]: click or drag *)

Lemma moves_disarmed (ms : list Editable.PointerEvent) (st : Editable.EditState) :
  Editable.pointerDownRef st = None →
  Editable.pointerDownRef (Editable.moves ms st) = None.
Proof.
  revert st. induction ms as [|e ms IH]; intros st Hst; [done|].
  simpl. apply IH. simpl. by rewrite Hst.
Qed.

Lemma onPointerMove_ref (e : Editable.PointerEvent) (st : Editable.EditState)
    (p : Z * Z) :
  Editable.pointerDownRef st = Some p →
  Editable.pointerDownRef (Editable.onPointerMove e st).1
  = if Editable.isPrimary e && Editable.beyond_threshold p e then None else Some p.
Proof. intros Hst. unfold Editable.onPointerMove. cbn [fst Editable.pointerDownRef]. by rewrite Hst. Qed.

Lemma moves_armed (ms : list Editable.PointerEvent) (st : Editable.EditState)
    (p q : Z * Z) :
  Editable.pointerDownRef st = Some p →
  Editable.pointerDownRef (Editable.moves ms st) = Some q ↔
  q = p ∧ Forall (Editable.stays_put p) ms.
Proof.
  revert st. induction ms as [|e ms IH]; intros st Hst.
  - simpl. rewrite Hst. split.
    + intros [= ->]. by split.
    + by intros [-> _].
  - change (Editable.moves (e :: ms) st)
      with (Editable.moves ms (Editable.onPointerMove e st).1).
    rewrite Forall_cons.
    pose proof (onPointerMove_ref e st p Hst) as Hmove.
    destruct (Editable.isPrimary e && Editable.beyond_threshold p e) eqn:Hb.
    + rewrite (moves_disarmed _ _ Hmove).
      split; [done|]. intros (_ & Hstay & _).
      apply andb_true_iff in Hb as [Hprim Hbeyond].
      destruct (Hstay Hprim) as [Hx Hy].
      unfold Editable.beyond_threshold in Hbeyond.
      apply orb_true_iff in Hbeyond as [H%Z.ltb_lt | H%Z.ltb_lt]; lia.
    + rewrite (IH _ Hmove).
      split; intros [Hq Hall]; (split; [done|]); [split; [|done]|tauto].
      intros Hprim. rewrite Hprim in Hb. simpl in Hb.
      unfold Editable.beyond_threshold in Hb.
      apply orb_false_iff in Hb as [Hx%Z.ltb_ge Hy%Z.ltb_ge]. by split.
Qed.

(** X21. A press focuses the editable on release exactly when it was a
    click: after a primary pointer goes down, releasing calls [focus] if and
    only if the release is of the primary pointer and no move of the primary
    pointer in between went more than 3 pixels from the press along either
    axis; the release always forgets the press. *)
Theorem press_focuses_iff_click (down up : Editable.PointerEvent)
    (ms : list Editable.PointerEvent) (st : Editable.EditState) :
  Editable.isPrimary down = true →
  let pressed := (Editable.onPointerDown down st).1 in
  let released := Editable.onPointerUp up (Editable.moves ms pressed) in
  (Editable.Focus ∈ released.2 ↔
     Editable.isPrimary up = true ∧
     Forall (Editable.stays_put (Editable.clientX down, Editable.clientY down)) ms) ∧
  Editable.pointerDownRef released.1 = None.
Proof.
  intros Hdown pressed released. subst released. split; [|done].
  set (p := (Editable.clientX down, Editable.clientY down)).
  assert (Hp : Editable.pointerDownRef pressed = Some p).
  { subst pressed. simpl. by rewrite Hdown. }
  unfold Editable.onPointerUp; simpl.
  destruct (Editable.pointerDownRef (Editable.moves ms pressed)) as [q|] eqn:Hq.
  - apply (moves_armed ms pressed p q Hp) in Hq as [_ Hall].
    destruct (Editable.isPrimary up).
    + split; [done|]. intros _. apply list_elem_of_here.
    + split; [by intros H%elem_of_nil|]. by intros [? _].
  - split; [by intros H%elem_of_nil|]. intros [_ Hall].
    assert (Hsome : Editable.pointerDownRef (Editable.moves ms pressed) = Some p)
      by by apply (moves_armed ms pressed p p Hp).
    congruence.
Qed.

Lemma press_focuses_iff_click_witness :
  Editable.Focus ∈
    (Editable.onPointerUp (Editable.mkPointerEvent true 12 11)
       (Editable.moves [Editable.mkPointerEvent true 12 11]
          (Editable.onPointerDown (Editable.mkPointerEvent true 10 10)
             (Editable.mkEditState None false)).1)).2.
Proof.
  apply (press_focuses_iff_click (Editable.mkPointerEvent true 10 10)
           (Editable.mkPointerEvent true 12 11) [Editable.mkPointerEvent true 12 11]
           (Editable.mkEditState None false) eq_refl).
  split; [reflexivity|]. apply Forall_cons. split; [|apply Forall_nil_2].
  intros _. unfold Editable.DRAG_THRESHOLD. simpl. lia.
Defined.

Example drag_does_not_focus :
  (Editable.onPointerUp (Editable.mkPointerEvent true 20 10)
     (Editable.moves [Editable.mkPointerEvent true 14 10; Editable.mkPointerEvent true 10 10]
        (Editable.onPointerDown (Editable.mkPointerEvent true 10 10)
           (Editable.mkEditState None false)).1)).2 = [].
Proof. reflexivity. Qed.

(** X22. Without a press there is no focus: when no press is held, or
    the pointer has left the element, moves of any number followed by a
    release never call [focus]; and moves never change whether the editable
    counts as focused. *)
Theorem no_press_no_focus (up : Editable.PointerEvent)
    (ms : list Editable.PointerEvent) (st : Editable.EditState) :
  (Editable.pointerDownRef st = None →
     (Editable.onPointerUp up (Editable.moves ms st)).2 = []) ∧
  (Editable.onPointerUp up (Editable.moves ms (Editable.onPointerLeave st))).2 = [] ∧
  Editable.isFocused (Editable.moves ms st) = Editable.isFocused st.
Proof.
  assert (Hnone : ∀ st', Editable.pointerDownRef st' = None →
            (Editable.onPointerUp up (Editable.moves ms st')).2 = []).
  { intros st' Hst. unfold Editable.onPointerUp; simpl.
    by rewrite (moves_disarmed ms st' Hst). }
  split_and!.
  - apply Hnone.
  - by apply Hnone.
  - clear Hnone. revert st. induction ms as [|e ms IH]; intros st; [done|].
    change (Editable.moves (e :: ms) st)
      with (Editable.moves ms (Editable.onPointerMove e st).1).
    by rewrite IH.
Qed.

(** * Independent actions commute *)

Lemma filter_comm {A} (P Q : A → Prop) `{!∀ x, Decision (P x)} `{!∀ x, Decision (Q x)}
    (l : list A) :
  filter P (filter Q l) = filter Q (filter P l).
Proof.
  rewrite !list_filter_filter. apply filter_ext_eq. intros x. tauto.
Qed.

(** X23. Deletions commute: two actions, each a [node:delete] or an
    [edge:delete], give the same state in either order. *)
Theorem deletes_commute (s : State) (a b : RealtimeAction) (x y : string) :
  is_delete a = true →
  is_delete b = true →
  apply a x (apply b y s) = apply b y (apply a x s).
Proof.
  intros Ha Hb.
  destruct a as [| |ia| |fa ta| | | |]; try discriminate Ha;
    destruct b as [| |ib| |fb tb| | | |]; try discriminate Hb;
    unfold apply, setPending, setDoc, with_edges, with_nodes; simpl; f_equal.
  - f_equal; apply filter_comm.
  - apply delete_delete.
  - f_equal. apply filter_comm.
  - f_equal. apply filter_comm.
  - f_equal. apply filter_comm.
Qed.

Lemma deletes_commute_witness :
  apply (NodeDelete "n2") "bob" (apply (EdgeDelete "n1" "n2") "alice" state_n1_e1)
  = apply (EdgeDelete "n1" "n2") "alice" (apply (NodeDelete "n2") "bob" state_n1_e1).
Proof.
  apply (deletes_commute state_n1_e1 (NodeDelete "n2") (EdgeDelete "n1" "n2") "bob" "alice");
    reflexivity.
Defined.

Lemma find_insert_other (ns : list CanvasNode) (j : nat) (m m' : CanvasNode) (a : string) :
  ns !! j = Some m →
  node_id m ≠ a →
  node_id m' ≠ a →
  list_find (has_id a) (<[j := m']> ns) = list_find (has_id a) ns.
Proof.
  revert j. induction ns as [|n ns IH]; intros j Hj Hm Hm'; [done|].
  destruct j as [|j]; simpl in *.
  - injection Hj as ->. by rewrite !decide_False by done.
  - destruct (decide (has_id a n)); [done|]. by rewrite (IH j).
Qed.

Lemma update_found (s : State) (id x : string) (props : PartialCanvasNode)
    (i : nat) (node : CanvasNode) :
  list_find (has_id id) (nodes (doc s)) = Some (i, node) →
  apply (NodeUpdate id props) x s
  = setDoc (with_nodes (<[i := assign_node node props]> (nodes (doc s)))) s.
Proof. intros Hf. simpl. by rewrite Hf. Qed.

Lemma update_buffered (s : State) (id x : string) (props : PartialCanvasNode) :
  list_find (has_id id) (nodes (doc s)) = None →
  apply (NodeUpdate id props) x s
  = setPending
      (<[id := assign_partial (default empty_partial (pendingUpdates s !! id)) props]>) s.
Proof. intros Hf. simpl. by rewrite Hf. Qed.

(** X24. Updates of different ids commute: when neither carries an [id]
    field, two [node:update]s for different ids give the same state in
    either order, whether their nodes exist or their props are buffered. *)
Theorem updates_commute (s : State) (a b : string) (pa pb : PartialCanvasNode)
    (x y : string) :
  a ≠ b →
  part_id pa = None →
  part_id pb = None →
  apply (NodeUpdate a pa) x (apply (NodeUpdate b pb) y s)
  = apply (NodeUpdate b pb) y (apply (NodeUpdate a pa) x s).
Proof.
  intros Hab Hpa Hpb.
  assert (Hother : ∀ (c d : string) (pd : PartialCanvasNode) (k : nat) (nd : CanvasNode),
            c ≠ d → part_id pd = None →
            list_find (has_id d) (nodes (doc s)) = Some (k, nd) →
            list_find (has_id c) (<[k := assign_node nd pd]> (nodes (doc s)))
            = list_find (has_id c) (nodes (doc s))).
  { intros c d pd k nd Hcd Hpd (Hk & Hid & _)%list_find_Some. unfold has_id in Hid.
    apply (find_insert_other _ k nd); [done|congruence|].
    rewrite assign_node_id_free by done. congruence. }
  destruct (list_find (has_id a) (nodes (doc s))) as [[i na]|] eqn:Hfa;
    destruct (list_find (has_id b) (nodes (doc s))) as [[j nb]|] eqn:Hfb.
  - assert (Hij : i ≠ j).
    { apply list_find_Some in Hfa as (Hi & Hia & _).
      apply list_find_Some in Hfb as (Hj & Hjb & _).
      unfold has_id in Hia, Hjb. intros ->. congruence. }
    rewrite (update_found s b y pb j nb Hfb), (update_found s a x pa i na Hfa).
    rewrite (update_found _ a x pa i na)
      by (simpl; by rewrite (Hother a b pb j nb)).
    rewrite (update_found _ b y pb j nb)
      by (simpl; by rewrite (Hother b a pa i na)).
    unfold setDoc, with_nodes; simpl. do 2 f_equal.
    by apply list_insert_insert_ne.
  - rewrite (update_buffered s b y pb Hfb), (update_found s a x pa i na Hfa).
    rewrite (update_found _ a x pa i na) by done.
    by rewrite (update_buffered _ b y pb)
      by (simpl; by rewrite (Hother b a pa i na)).
  - rewrite (update_found s b y pb j nb Hfb), (update_buffered s a x pa Hfa).
    rewrite (update_found _ b y pb j nb) by done.
    by rewrite (update_buffered _ a x pa)
      by (simpl; by rewrite (Hother a b pb j nb)).
  - rewrite (update_buffered s b y pb Hfb), (update_buffered s a x pa Hfa).
    rewrite (update_buffered _ a x pa) by done.
    rewrite (update_buffered _ b y pb) by done.
    unfold setPending; simpl. f_equal.
    rewrite !lookup_insert_ne by done. by apply insert_insert_ne.
Qed.

Lemma updates_commute_witness :
  apply (NodeUpdate "n1" props_x5) "alice" (apply (NodeUpdate "n2" props_x5) "bob" state_n1_e1)
  = apply (NodeUpdate "n2" props_x5) "bob" (apply (NodeUpdate "n1" props_x5) "alice" state_n1_e1).
Proof.
  apply (updates_commute state_n1_e1 "n1" "n2" props_x5 props_x5 "alice" "bob");
    [discriminate | reflexivity | reflexivity].
Defined.
